(** * nodetools.models.models: memo structure, memo groups, memo patterns
      and the interaction graph

    A shallow embedding of [nodetools/models/models.py] and the properties
    of its memo protocol.  Python values that the code reads out of a
    transaction dictionary are modelled by [pyval]; a Python exception is a
    [Raise] result. *)

From Stdlib Require Import ZArith Ascii String List Bool Lia.
From stdpp Require Import base decidable option list gmap strings.

Local Open Scope string_scope.
Local Open Scope Z_scope.
Local Open Scope list_scope.

(** ** Python values and exceptions *)

(** The values a transaction field holds: [None], a [bool], a [str], or a
    [datetime] (an orderable instant, kept as its position on the time
    line).  On this universe Python's [==] is structural equality. *)
Inductive pyval : Type :=
  | PNone
  | PBool (b : bool)
  | PStr (s : string)
  | PTime (t : Z).

#[global] Instance pyval_eq_dec : EqDecision pyval.
Proof. solve_decision. Defined.

Inductive exn : Type := TypeError | AttributeError | ValueError.

Inductive result (A : Type) : Type :=
  | Ok (a : A)
  | Raise (e : exn).
Arguments Ok {A} a.
Arguments Raise {A} e.

#[global] Instance result_bind : MBind result :=
  fun A B (k : A -> result B) (r : result A) =>
    match r with
    | Ok a => k a
    | Raise e => Raise e
    end.

(** [Dict[str, Any]], the type of a transaction record *)
Abbreviation pydict := (gmap string pyval).

(** [d.get(k)] and [d.get(k, dflt)] *)
Definition dict_get (d : pydict) (k : string) (dflt : pyval) : pyval :=
  match d !! k with
  | Some v => v
  | None => dflt
  end.

(** [bool(v)] *)
Definition truthy (v : pyval) : bool :=
  match v with
  | PNone => false
  | PBool b => b
  | PStr s => negb (String.eqb s "")
  | PTime _ => true
  end.

(** [a < b]: defined between two values of the same orderable type. *)
Definition py_lt (a b : pyval) : result bool :=
  match a, b with
  | PBool x, PBool y => Ok (negb x && y)
  | PStr x, PStr y => Ok (String.ltb x y)
  | PTime x, PTime y => Ok (x <? y)
  | _, _ => Raise TypeError
  end.

(** ** Strings *)

(** [s.split(sep)] for a one-character separator. *)
Fixpoint split (sep : ascii) (s : string) : list string :=
  match s with
  | EmptyString => [EmptyString]
  | String c s' =>
      if Ascii.eqb c sep then EmptyString :: split sep s'
      else match split sep s' with
           | h :: t => String c h :: t
           | [] => [String c EmptyString]
           end
  end.

(** [needle in s] *)
Fixpoint contains (needle s : string) : bool :=
  String.prefix needle s ||
  match s with
  | EmptyString => false
  | String _ s' => contains needle s'
  end.

(** [\d], over the ASCII digits: the strings of the model are sequences of
    8-bit characters. *)
Definition is_digit (c : ascii) : bool :=
  let n := N_of_ascii c in ((48 <=? n) && (n <=? 57))%N.

(** The longest run of digits at the start of [s], and what follows it. *)
Fixpoint span_digits (s : string) : string * string :=
  match s with
  | String c s' =>
      if is_digit c then let (d, r) := span_digits s' in (String c d, r)
      else (EmptyString, s)
  | EmptyString => (EmptyString, EmptyString)
  end.

(** [int(s)] on a run of digits. *)
Fixpoint int_acc (acc : Z) (s : string) : Z :=
  match s with
  | EmptyString => acc
  | String c s' => int_acc (10 * acc + (Z.of_N (N_of_ascii c) - 48)) s'
  end.
Definition int_of_digits (s : string) : Z := int_acc 0 s.

(** ** Regular expressions and [re.match]

    [re.match(p, s)] succeeds when some prefix of [s] is in the language of
    [p]; it is decided here with derivatives. *)
Inductive re : Type :=
  | Void
  | Eps
  | Sat (p : ascii -> bool)
  | Cat (r1 r2 : re)
  | Alt (r1 r2 : re)
  | Star (r : re).

Definition Chr (c : ascii) : re := Sat (Ascii.eqb c).
Definition Plus (r : re) : re := Cat r (Star r).
Fixpoint Lit (s : string) : re :=
  match s with
  | EmptyString => Eps
  | String c s' => Cat (Chr c) (Lit s')
  end.

Inductive re_lang : re -> string -> Prop :=
  | L_Eps : re_lang Eps ""
  | L_Sat p c : p c = true -> re_lang (Sat p) (String c "")
  | L_Cat r1 r2 s1 s2 :
      re_lang r1 s1 -> re_lang r2 s2 -> re_lang (Cat r1 r2) (s1 +:+ s2)
  | L_AltL r1 r2 s : re_lang r1 s -> re_lang (Alt r1 r2) s
  | L_AltR r1 r2 s : re_lang r2 s -> re_lang (Alt r1 r2) s
  | L_Star0 r : re_lang (Star r) ""
  | L_StarS r s1 s2 :
      re_lang r s1 -> re_lang (Star r) s2 -> re_lang (Star r) (s1 +:+ s2).

Fixpoint nullable (r : re) : bool :=
  match r with
  | Void => false
  | Eps => true
  | Sat _ => false
  | Cat r1 r2 => nullable r1 && nullable r2
  | Alt r1 r2 => nullable r1 || nullable r2
  | Star _ => true
  end.

Fixpoint deriv (c : ascii) (r : re) : re :=
  match r with
  | Void => Void
  | Eps => Void
  | Sat p => if p c then Eps else Void
  | Cat r1 r2 =>
      if nullable r1 then Alt (Cat (deriv c r1) r2) (deriv c r2)
      else Cat (deriv c r1) r2
  | Alt r1 r2 => Alt (deriv c r1) (deriv c r2)
  | Star r1 => Cat (deriv c r1) (Star r1)
  end.

(** [bool(re.match(r, s))] *)
Fixpoint re_match (r : re) (s : string) : bool :=
  nullable r ||
  match s with
  | EmptyString => false
  | String c s' => re_match (deriv c r) s'
  end.

Definition digit : re := Sat is_digit.

(** [s] without the prefix [p], when it starts with it. *)
Fixpoint strip_prefix (p s : string) : option string :=
  match p, s with
  | EmptyString, _ => Some s
  | String a p', String b s' =>
      if Ascii.eqb a b then strip_prefix p' s' else None
  | String _ _, EmptyString => None
  end.

(** [v in s] for a Python value [s] *)
Definition py_contains (needle : string) (v : pyval) : result bool :=
  match v with
  | PStr s => Ok (contains needle s)
  | _ => Raise TypeError
  end.

Inductive InteractionType : Type := REQUEST | RESPONSE | STANDALONE.

Inductive MemoDataStructureType : Type := ECDH | BROTLI | CHUNK | NONE.

Definition value (t : MemoDataStructureType) : string :=
  match t with
  | ECDH => "e"
  | BROTLI => "b"
  | CHUNK => "c"
  | NONE => "-"
  end.

#[global] Instance MemoDataStructureType_eq_dec :
  EqDecision MemoDataStructureType.
Proof. solve_decision. Defined.

#[global] Instance InteractionType_eq_dec : EqDecision InteractionType.
Proof. solve_decision. Defined.

(** ** MemoStructure *)
Module MemoStructure.

Record t : Type := mk {
  is_chunked : bool;
  chunk_index : option Z;
  total_chunks : option Z;
  group_id : pyval;
  compression_type : option MemoDataStructureType;
  encryption_type : option MemoDataStructureType;
  is_standardized_format : bool
}.

Definition is_complete (self : t) : bool := negb (is_chunked self).

(** [fr'{MemoDataStructureType.CHUNK.value}\d+/\d+'] *)
Definition chunking_re : re :=
  Cat (Lit (value CHUNK)) (Cat (Plus digit) (Cat (Chr "/") (Plus digit))).

(** [r'^chunk_(\d+)__']; under [re.match] the leading [^] is already
    implied. *)
Definition legacy_chunk_re : re :=
  Cat (Lit "chunk_") (Cat (Plus digit) (Lit "__")).

(** The groups of [re.match(fr'c(\d+)/(\d+)', s)]: both runs of digits
    are greedy, and neither ["/"] nor what follows can give a digit
    back. *)
Definition chunking_groups (s : string) : option (string * string) :=
  match strip_prefix (value CHUNK) s with
  | Some s1 =>
      let (g1, r1) := span_digits s1 in
      match g1, r1 with
      | String _ _, String "/" s2 =>
          let (g2, _) := span_digits s2 in
          match g2 with
          | String _ _ => Some (g1, g2)
          | EmptyString => None
          end
      | _, _ => None
      end
  | None => None
  end.

(** Group 1 of [re.match(r'^chunk_(\d+)__', s)]. *)
Definition legacy_chunk_group (s : string) : option string :=
  match strip_prefix "chunk_" s with
  | Some s1 =>
      let (g1, r1) := span_digits s1 in
      match g1, strip_prefix "__" r1 with
      | String _ _, Some _ => Some g1
      | _, _ => None
      end
  | None => None
  end.

Definition str_in (s : string) (l : list string) : bool :=
  existsb (String.eqb s) l.

Definition is_standardized_memo_format (memo_format : pyval) : result bool :=
  if negb (truthy memo_format) then Ok false
  else
    match memo_format with
    | PStr f =>
        match split "." f with
        | [encryption; compression; chunking] =>
            if negb (str_in encryption [value ECDH; value NONE]) then Ok false
            else if negb (str_in compression [value BROTLI; value NONE])
            then Ok false
            else if negb (String.eqb chunking (value NONE)) then
              if negb (re_match chunking_re chunking) then Ok false
              else Ok true
            else Ok true
        | _ => Ok false
        end
    | _ => Raise AttributeError
    end.

Definition parse_standardized_format (memo_format : string) : result t :=
  match split "." memo_format with
  | [encryption; compression; chunking] =>
      let encryption_type :=
        if String.eqb encryption (value ECDH) then Some ECDH else None in
      let compression_type :=
        if String.eqb compression (value BROTLI) then Some BROTLI else None in
      let '(chunk_index, total_chunks) :=
        if negb (String.eqb chunking (value NONE)) then
          match chunking_groups chunking with
          | Some (g1, g2) => (Some (int_of_digits g1), Some (int_of_digits g2))
          | None => (None, None)
          end
        else (None, None) in
      Ok {| is_chunked := bool_decide (chunk_index <> None);
            chunk_index := chunk_index;
            total_chunks := total_chunks;
            group_id := PNone;
            compression_type := compression_type;
            encryption_type := encryption_type;
            is_standardized_format := true |}
  | _ => Raise ValueError
  end.

Definition set_group_id (structure : t) (g : pyval) : t :=
  {| is_chunked := is_chunked structure;
     chunk_index := chunk_index structure;
     total_chunks := total_chunks structure;
     group_id := g;
     compression_type := compression_type structure;
     encryption_type := encryption_type structure;
     is_standardized_format := is_standardized_format structure |}.

Definition from_transaction (tx : pydict) : result t :=
  let memo_data := dict_get tx "memo_data" (PStr "") in
  let memo_format := dict_get tx "memo_format" PNone in
  std ← is_standardized_memo_format memo_format;
  if std : bool then
    match memo_format with
    | PStr f =>
        structure ← parse_standardized_format f;
        Ok (set_group_id structure (dict_get tx "memo_type" PNone))
    | _ => Raise AttributeError
    end
  else
    match memo_data with
    | PStr data =>
        let chunk_match := legacy_chunk_group data in
        let is_compressed :=
          match chunk_match with
          | Some g1 =>
              if String.eqb g1 "1" then Some (contains "COMPRESSED__" data)
              else None
          | None => None
          end in
        Ok {| is_chunked := bool_decide (chunk_match <> None);
              chunk_index := int_of_digits <$> chunk_match;
              total_chunks := None;
              group_id := dict_get tx "memo_type" PNone;
              compression_type :=
                match is_compressed with
                | Some true => Some BROTLI
                | _ => None
                end;
              encryption_type := None;
              is_standardized_format := false |}
    | _ => Raise TypeError
    end.

End MemoStructure.

(** ** MemoGroup *)
Module MemoGroup.

Record t : Type := mk {
  group_id : pyval;
  memos : list pydict;
  structure : option MemoStructure.t
}.

Definition create_from_transaction (tx : pydict) : result t :=
  structure ← MemoStructure.from_transaction tx;
  Ok {| group_id := dict_get tx "memo_type" PNone;
        memos := [tx];
        structure := Some structure |}.

(** [self.structure] may be [None]; reading an attribute of it raises. *)
Definition _is_structure_consistent
    (self : t) (new_structure : MemoStructure.t) : result bool :=
  match structure self with
  | Some st =>
      Ok (bool_decide (MemoStructure.encryption_type new_structure
                       = MemoStructure.encryption_type st)
          && bool_decide (MemoStructure.compression_type new_structure
                          = MemoStructure.compression_type st)
          && bool_decide (MemoStructure.total_chunks new_structure
                          = MemoStructure.total_chunks st))
  | None => Raise AttributeError
  end.

(** [next((memo for memo in memos if from_transaction(memo).chunk_index
    == idx), None)] *)
Fixpoint find_existing (memos : list pydict) (idx : option Z)
    : result (option pydict) :=
  match memos with
  | [] => Ok None
  | memo :: rest =>
      s ← MemoStructure.from_transaction memo;
      if bool_decide (MemoStructure.chunk_index s = idx) then Ok (Some memo)
      else find_existing rest idx
  end.

(** [l.remove(x)]: drops the first element equal to [x]. *)
Fixpoint list_remove (x : pydict) (l : list pydict) : result (list pydict) :=
  match l with
  | [] => Raise ValueError
  | y :: l' =>
      if bool_decide (y = x) then Ok l'
      else l'' ← list_remove x l'; Ok (y :: l'')
  end.

Definition append (self : t) (tx : pydict) : t :=
  {| group_id := group_id self;
     memos := memos self ++ [tx];
     structure := structure self |}.

Definition set_memos (self : t) (l : list pydict) : t :=
  {| group_id := group_id self; memos := l; structure := structure self |}.

(** [bool(d)] for a dictionary *)
Definition dict_truthy (d : pydict) : bool := negb (bool_decide (d = ∅)).

(** The returned pair is the Boolean result and the group after the
    call. *)
Definition add_memo (self : t) (tx : pydict) : result (bool * t) :=
  if negb (bool_decide (dict_get tx "transaction_result" PNone
                        = PStr "tesSUCCESS"))
  then Ok (false, self)
  else if negb (bool_decide (dict_get tx "memo_type" PNone = group_id self))
  then Ok (false, self)
  else
    new_structure ← MemoStructure.from_transaction tx;
    if MemoStructure.is_standardized_format new_structure then
      consistent ← _is_structure_consistent self new_structure;
      if negb consistent then Ok (false, self)
      else Ok (true, append self tx)
    else
      let add := Ok (true, append self tx) in
      match MemoStructure.chunk_index new_structure with
      | Some _ =>
          existing_memo ←
            find_existing (memos self)
                          (MemoStructure.chunk_index new_structure);
          match existing_memo with
          | Some existing =>
              if dict_truthy existing then
                earlier ← py_lt (dict_get tx "datetime" PNone)
                                (dict_get existing "datetime" PNone);
                if earlier : bool then
                  l ← list_remove existing (memos self);
                  Ok (true, set_memos self (l ++ [tx]))
                else Ok (false, self)
              else add
          | None => add
          end
      | None => add
      end.

(** The indices one memo gives to the set comprehension of
    [chunk_indices]: the filter derives the descriptor, and so does the
    element expression. *)
Definition indices_of_memo (tx : pydict) : result (gset Z) :=
  c ← MemoStructure.from_transaction tx;
  if bool_decide (MemoStructure.chunk_index c <> None) then
    v ← MemoStructure.from_transaction tx;
    Ok (match MemoStructure.chunk_index v with
        | Some i => {[ i ]}
        | None => ∅
        end)
  else Ok ∅.

Fixpoint indices_of_memos (memos : list pydict) : result (gset Z) :=
  match memos with
  | [] => Ok ∅
  | tx :: rest =>
      here ← indices_of_memo tx;
      more ← indices_of_memos rest;
      Ok (here ∪ more)
  end.

Definition chunk_indices (self : t) : result (gset Z) :=
  indices_of_memos (memos self).

End MemoGroup.

(** ** StructuralPattern *)
Module StructuralPattern.

Inductive t : Type :=
  | NO_MEMO
  | DIRECT_MATCH
  | NEEDS_GROUPING
  | NEEDS_LEGACY_GROUPING.

Definition match_ (tx : pydict) : result t :=
  if negb (truthy (dict_get tx "has_memos" PNone)) then Ok NO_MEMO
  else
    structure ← MemoStructure.from_transaction tx;
    if MemoStructure.is_standardized_format structure then
      Ok (if MemoStructure.is_chunked structure then NEEDS_GROUPING
          else DIRECT_MATCH)
    else
      has_prefix ← py_contains "chunk_" (dict_get tx "memo_data" (PStr ""));
      if has_prefix : bool then Ok NEEDS_LEGACY_GROUPING
      else Ok DIRECT_MATCH.

End StructuralPattern.

(** ** MemoPattern *)

(** A compiled regular expression: its source text ([.pattern]) and the
    expression the matcher runs. *)
Record Pattern : Type := mkPattern {
  pattern : string;
  prog : re
}.

(** [str | Pattern] *)
Inductive matcher : Type :=
  | Literal (s : string)
  | Compiled (p : Pattern).

Module MemoPattern.

Record t : Type := mk {
  memo_type : option matcher;
  memo_format : option matcher;
  memo_data : option matcher
}.

Definition get_message_structure (self : t) (tx : pydict)
    : result MemoStructure.t :=
  MemoStructure.from_transaction tx.

(** [bool(self.memo_type)]: a compiled pattern is always true, a string
    is true when it is not empty. *)
Definition slot_truthy (m : option matcher) : bool :=
  match m with
  | None => false
  | Some (Literal s) => negb (String.eqb s "")
  | Some (Compiled _) => true
  end.

Definition _pattern_matches (pattern : matcher) (value : pyval)
    : result bool :=
  match pattern with
  | Compiled p =>
      match value with
      | PStr s => Ok (re_match (prog p) s)
      | _ => Raise TypeError
      end
  | Literal s => Ok (bool_decide (PStr s = value))
  end.

(** One of the three blocks of [matches]: [true] when the block does not
    return [False]. *)
Definition slot_passes (slot : option matcher) (field : pyval)
    : result bool :=
  match slot with
  | Some m =>
      if slot_truthy slot then
        if negb (truthy field) then Ok false
        else _pattern_matches m field
      else Ok true
  | None => Ok true
  end.

Definition matches (self : t) (tx : pydict) : result bool :=
  p1 ← slot_passes (memo_type self) (dict_get tx "memo_type" PNone);
  if negb p1 then Ok false
  else
    p2 ← slot_passes (memo_format self) (dict_get tx "memo_format" PNone);
    if negb p2 then Ok false
    else
      p3 ← slot_passes (memo_data self) (dict_get tx "memo_data" PNone);
      if negb p3 then Ok false else Ok true.

(** What [__hash__] feeds to [hash]: the source text of a compiled
    pattern, the string itself otherwise. *)
Definition attr_hash (m : option matcher) : option string :=
  match m with
  | Some (Compiled p) => Some (pattern p)
  | Some (Literal s) => Some s
  | None => None
  end.

Definition hash_key (self : t)
    : option string * option string * option string :=
  (attr_hash (memo_type self), attr_hash (memo_format self),
   attr_hash (memo_data self)).

(** [__hash__], over the interpreter's [hash] of a tuple. *)
Definition hash
    (py_hash : option string * option string * option string -> Z)
    (self : t) : Z :=
  py_hash (hash_key self).

Definition compare_attrs (a b : option matcher) : bool :=
  match a, b with
  | Some (Compiled p), Some (Compiled q) => String.eqb (pattern p) (pattern q)
  | Some (Literal s), Some (Literal u) => String.eqb s u
  | None, None => true
  | _, _ => false
  end.

(** [__eq__] between two [MemoPattern]s. *)
Definition eq (self other : t) : bool :=
  compare_attrs (memo_type self) (memo_type other)
  && compare_attrs (memo_format self) (memo_format other)
  && compare_attrs (memo_data self) (memo_data other).

End MemoPattern.

(** ** Dictionaries in insertion order, under a key equality *)
Section Dict.
Context {K V : Type} (eqb : K -> K -> bool).

(** [d[k] = v] *)
Fixpoint dict_set (k : K) (v : V) (d : list (K * V)) : list (K * V) :=
  match d with
  | [] => [(k, v)]
  | (k', v') :: d' =>
      if eqb k' k then (k', v) :: d' else (k', v') :: dict_set k v d'
  end.

(** [d.get(k)] *)
Fixpoint dict_lookup (k : K) (d : list (K * V)) : option V :=
  match d with
  | [] => None
  | (k', v') :: d' => if eqb k' k then Some v' else dict_lookup k d'
  end.
End Dict.

(** ** InteractionPattern *)
Module InteractionPattern.

Record t : Type := mk {
  memo_pattern : MemoPattern.t;
  transaction_type : InteractionType;
  valid_responses : option (list MemoPattern.t);
  notify : bool
}.

(** [bool(self.valid_responses)] *)
Definition responses_truthy (vr : option (list MemoPattern.t)) : bool :=
  match vr with
  | Some (_ :: _) => true
  | _ => false
  end.

Definition post_init (self : t) : result unit :=
  if bool_decide (transaction_type self = RESPONSE)
     && responses_truthy (valid_responses self)
  then Raise ValueError
  else if bool_decide (transaction_type self = REQUEST)
          && negb (responses_truthy (valid_responses self))
  then Raise ValueError
  else Ok tt.

(** The dataclass constructor: fields are stored, then [__post_init__]
    runs. *)
Definition new (memo_pattern : MemoPattern.t)
    (transaction_type : InteractionType)
    (valid_responses : option (list MemoPattern.t)) (notify : bool)
    : result t :=
  let self := mk memo_pattern transaction_type valid_responses notify in
  _ ← post_init self;
  Ok self.

End InteractionPattern.

(** ** InteractionGraph *)
Module InteractionGraph.

Record t : Type := mk {
  patterns : list (string * InteractionPattern.t);
  memo_pattern_to_id : list (MemoPattern.t * string)
}.

Definition init : t := {| patterns := []; memo_pattern_to_id := [] |}.

Definition add_pattern (self : t) (pattern_id : string)
    (memo_pattern : MemoPattern.t) (transaction_type : InteractionType)
    (valid_responses : option (list MemoPattern.t)) (notify : bool)
    : result t :=
  p ← InteractionPattern.new memo_pattern transaction_type
        valid_responses notify;
  Ok {| patterns := dict_set String.eqb pattern_id p (patterns self);
        memo_pattern_to_id :=
          dict_set MemoPattern.eq memo_pattern pattern_id
                   (memo_pattern_to_id self) |}.

Definition get_pattern_id_by_memo_pattern
    (self : t) (memo_pattern : MemoPattern.t) : option string :=
  dict_lookup MemoPattern.eq memo_pattern (memo_pattern_to_id self).

(** [any(p.matches(tx) for p in responses)], in the iteration order of
    the set. *)
Fixpoint any_matches (responses : list MemoPattern.t) (tx : pydict)
    : result bool :=
  match responses with
  | [] => Ok false
  | resp_pattern :: rest =>
      m ← MemoPattern.matches resp_pattern tx;
      if m : bool then Ok true else any_matches rest tx
  end.

(** Iterating over [None] raises. *)
Definition is_valid_response (self : t) (request_pattern_id : string)
    (response_tx : pydict) : result bool :=
  match dict_lookup String.eqb request_pattern_id (patterns self) with
  | None => Ok false
  | Some pattern =>
      if negb (bool_decide
                 (InteractionPattern.transaction_type pattern = REQUEST))
      then Ok false
      else
        match InteractionPattern.valid_responses pattern with
        | Some responses => any_matches responses response_tx
        | None => Raise TypeError
        end
  end.

Fixpoint find_matching_in (items : list (string * InteractionPattern.t))
    (tx : pydict) : result (option string) :=
  match items with
  | [] => Ok None
  | (pattern_id, pattern) :: rest =>
      m ← MemoPattern.matches (InteractionPattern.memo_pattern pattern) tx;
      if m : bool then Ok (Some pattern_id) else find_matching_in rest tx
  end.

Definition find_matching_pattern (self : t) (tx : pydict)
    : result (option string) :=
  find_matching_in (patterns self) tx.

End InteractionGraph.

(** ** Notions used in the statements *)

(** [re.fullmatch]: the whole of [s] is in the language of [r]. *)
Fixpoint re_fullmatch (r : re) (s : string) : bool :=
  match s with
  | EmptyString => nullable r
  | String c s' => re_fullmatch (deriv c r) s'
  end.

(** No fragment of the list sits at chunk index [idx], and every
    descriptor can be derived. *)
Definition index_free (l : list pydict) (idx : option Z) : Prop :=
  forall m, m ∈ l ->
    exists s, MemoStructure.from_transaction m = Ok s /\
              MemoStructure.chunk_index s <> idx.

(** [tx] is a settled legacy fragment of the group [g], with descriptor
    [s] and chunk index [i]. *)
Definition legacy_fragment (g : MemoGroup.t) (tx : pydict)
    (s : MemoStructure.t) (i : Z) : Prop :=
  dict_get tx "transaction_result" PNone = PStr "tesSUCCESS" /\
  dict_get tx "memo_type" PNone = MemoGroup.group_id g /\
  MemoStructure.from_transaction tx = Ok s /\
  MemoStructure.is_standardized_format s = false /\
  MemoStructure.chunk_index s = Some i.

(** [g.add_memo(x); g.add_memo(y)], keeping the group. *)
Definition add_both (g : MemoGroup.t) (x y : pydict) : result MemoGroup.t :=
  r1 ← MemoGroup.add_memo g x;
  r2 ← MemoGroup.add_memo r1.2 y;
  Ok r2.2.

(** A settled legacy transaction of group [gid] with content [data],
    submitted at time [t]. *)
Definition legacy_tx (gid data : string) (t : Z) : pydict :=
  {[ "transaction_result" := PStr "tesSUCCESS";
     "memo_type" := PStr gid;
     "memo_data" := PStr data;
     "datetime" := PTime t ]}.

(** A settled current-grammar transaction of group [gid]. *)
Definition standard_tx (gid fmt data : string) (t : Z) : pydict :=
  {[ "transaction_result" := PStr "tesSUCCESS";
     "memo_type" := PStr gid;
     "memo_format" := PStr fmt;
     "memo_data" := PStr data;
     "datetime" := PTime t ]}.

(** The descriptor of the legacy fragment [n], without compression
    information. *)
Definition legacy_structure (gid : string) (n : Z)
    (compression : option MemoDataStructureType) : MemoStructure.t :=
  {| MemoStructure.is_chunked := true;
     MemoStructure.chunk_index := Some n;
     MemoStructure.total_chunks := None;
     MemoStructure.group_id := PStr gid;
     MemoStructure.compression_type := compression;
     MemoStructure.encryption_type := None;
     MemoStructure.is_standardized_format := false |}.

(** Some prefix of [v] is in the language of [r]: a match anchored at the
    start of [v]. *)
Definition prefix_in (r : re) (v : string) : Prop :=
  exists pre suf, v = pre +:+ suf /\ re_lang r pre.

(** A field value satisfies a matcher: equality with a string matcher, an
    anchored match for a compiled one. *)
Definition satisfies (m : matcher) (v : string) : Prop :=
  match m with
  | Literal s => v = s
  | Compiled p => prefix_in (prog p) v
  end.

(** [matches] as the specification words it: every slot that is not
    [None] constrains the transaction, whose field is there and satisfies
    the matcher. *)
Definition spec_slot_satisfied (slot : option matcher) (field : option pyval)
    : Prop :=
  match slot with
  | None => True
  | Some m => exists v, field = Some (PStr v) /\ satisfies m v
  end.

Definition spec_matches (p : MemoPattern.t) (tx : pydict) : Prop :=
  spec_slot_satisfied (MemoPattern.memo_type p) (tx !! "memo_type") /\
  spec_slot_satisfied (MemoPattern.memo_format p) (tx !! "memo_format") /\
  spec_slot_satisfied (MemoPattern.memo_data p) (tx !! "memo_data").

(** What a slot asks of a field in the code: nothing when the slot is
    [None] or the empty string; otherwise the field is a string that is
    not empty and satisfies the matcher. *)
Definition slot_holds (slot : option matcher) (field : pyval) : Prop :=
  match slot with
  | None => True
  | Some m =>
      MemoPattern.slot_truthy slot = true ->
      exists v, field = PStr v /\ v <> "" /\ satisfies m v
  end.

(** The rule of equality between two matcher slots. *)
Definition slot_equal (a b : option matcher) : Prop :=
  match a, b with
  | None, None => True
  | Some (Literal s), Some (Literal u) => s = u
  | Some (Compiled p), Some (Compiled q) => pattern p = pattern q
  | _, _ => False
  end.

(** The two combinations the constructor forbids: a request without
    responses (none given, or an empty set), a response with some. *)
Definition violates_invariant (ty : InteractionType)
    (vr : option (list MemoPattern.t)) : Prop :=
  (ty = REQUEST /\ (vr = None \/ vr = Some [])) \/
  (ty = RESPONSE /\ exists x l, vr = Some (x :: l)).

(** [s] is made of digits only. *)
Fixpoint all_digits (s : string) : bool :=
  match s with
  | EmptyString => true
  | String c s' => is_digit c && all_digits s'
  end.

(** [s] does not start with a digit. *)
Definition no_leading_digit (s : string) : Prop :=
  match s with
  | EmptyString => True
  | String c _ => is_digit c = false
  end.


(** A field that is [None] or a string. *)
Definition none_or_str (v : pyval) : Prop :=
  v = PNone \/ exists s, v = PStr s.

(** The three memo fields of a transaction are [None] (or missing) or
    strings. *)
Definition string_fields (tx : pydict) : Prop :=
  none_or_str (dict_get tx "memo_type" PNone) /\
  none_or_str (dict_get tx "memo_format" PNone) /\
  none_or_str (dict_get tx "memo_data" PNone).

(** The set a descriptor contributes to [chunk_indices]. *)
Definition index_set (s : MemoStructure.t) : gset Z :=
  match MemoStructure.chunk_index s with
  | Some i => {[ i ]}
  | None => ∅
  end.

(** The chunk index of a memo, when its descriptor can be derived and has
    one. *)
Definition index_of (m : pydict) : option Z :=
  match MemoStructure.from_transaction m with
  | Ok s => MemoStructure.chunk_index s
  | Raise _ => None
  end.

(** No two memos of the list have the same chunk index. *)
Definition unique_indices (l : list pydict) : Prop :=
  NoDup (omap index_of l).

(** [m] is settled and belongs to the group [gid]. *)
Definition settled_member (gid : pyval) (m : pydict) : Prop :=
  dict_get m "transaction_result" PNone = PStr "tesSUCCESS" /\
  dict_get m "memo_type" PNone = gid.

(** What [__post_init__] lets through. *)
Definition role_consistent (ip : InteractionPattern.t) : Prop :=
  (InteractionPattern.transaction_type ip = REQUEST ->
   exists x l, InteractionPattern.valid_responses ip = Some (x :: l)) /\
  (InteractionPattern.transaction_type ip = RESPONSE ->
   InteractionPattern.valid_responses ip = None \/
   InteractionPattern.valid_responses ip = Some []).

(** * Properties *)

(** ** Strings *)

Lemma str_app_nil_l (s : string) : "" +:+ s = s.
Proof. reflexivity. Qed.

Lemma str_app_cons (c : ascii) (s u : string) :
  String c s +:+ u = String c (s +:+ u).
Proof. reflexivity. Qed.

Lemma str_app_eq_nil (s u : string) : s +:+ u = "" -> s = "" /\ u = "".
Proof. destruct s; [auto | rewrite str_app_cons; discriminate]. Qed.

(** ** [re.match] decides membership of a prefix *)

Lemma nullable_spec (r : re) : nullable r = true <-> re_lang r "".
Proof.
  split.
  - induction r as [| |p|r1 IH1 r2 IH2|r1 IH1 r2 IH2|r IH]; simpl; intros H;
      try discriminate.
    + constructor.
    + apply andb_true_iff in H as [H1 H2].
      change "" with ("" +:+ ""). constructor; auto.
    + apply orb_true_iff in H as [H|H]; [apply L_AltL | apply L_AltR]; auto.
    + constructor.
  - intros H. remember "" as s eqn:E.
    induction H as [|p c Hp|r1 r2 s1 s2 H1 IH1 H2 IH2|r1 r2 s H IH
                    |r1 r2 s H IH|r|r s1 s2 H1 IH1 H2 IH2]; simpl; auto.
    + discriminate.
    + apply str_app_eq_nil in E as [-> ->].
      rewrite IH1, IH2; reflexivity.
    + rewrite IH; auto.
    + rewrite IH; auto using orb_true_r.
Qed.

Lemma deriv_sound (c : ascii) (r : re) (s : string) :
  re_lang (deriv c r) s -> re_lang r (String c s).
Proof.
  revert s.
  induction r as [| |p|r1 IH1 r2 IH2|r1 IH1 r2 IH2|r IH]; simpl; intros s H.
  - inversion H.
  - inversion H.
  - destruct (p c) eqn:Hp; inversion H; subst. constructor; assumption.
  - destruct (nullable r1) eqn:N.
    + inversion H as [| | |? ? ? HL|? ? ? HR| |]; subst.
      * inversion HL as [| |? ? s1 s2 Ha Hb| | | |]; subst.
        rewrite <- str_app_cons. constructor; auto.
      * rewrite <- (str_app_nil_l (String c s)).
        constructor; [apply nullable_spec; assumption | auto].
    + inversion H as [| |? ? s1 s2 Ha Hb| | | |]; subst.
      rewrite <- str_app_cons. constructor; auto.
  - inversion H; subst; [apply L_AltL | apply L_AltR]; auto.
  - inversion H as [| |? ? s1 s2 Ha Hb| | | |]; subst.
    rewrite <- str_app_cons. constructor; auto.
Qed.

Lemma deriv_complete (c : ascii) (r : re) (s : string) :
  re_lang r (String c s) -> re_lang (deriv c r) s.
Proof.
  intros H. remember (String c s) as w eqn:E. revert s E.
  induction H as [|p a Hp|r1 r2 s1 s2 H1 IH1 H2 IH2|r1 r2 w H IH
                  |r1 r2 w H IH|r|r s1 s2 H1 IH1 H2 IH2]; intros s E; simpl.
  - discriminate.
  - injection E as -> <-. rewrite Hp. constructor.
  - destruct s1 as [|a s1].
    + rewrite str_app_nil_l in E.
      apply nullable_spec in H1. rewrite H1. apply L_AltR; auto.
    + rewrite str_app_cons in E. injection E as -> <-.
      destruct (nullable r1); [apply L_AltL|]; constructor; auto.
  - apply L_AltL; auto.
  - apply L_AltR; auto.
  - discriminate.
  - destruct s1 as [|a s1].
    + rewrite str_app_nil_l in E. apply IH2 in E. exact E.
    + rewrite str_app_cons in E. injection E as -> <-.
      constructor; auto.
Qed.

Lemma re_match_spec (r : re) (s : string) :
  re_match r s = true <->
  exists pre suf, s = pre +:+ suf /\ re_lang r pre.
Proof.
  split.
  - revert r. induction s as [|c s IH]; intros r H; simpl in H.
    + rewrite orb_false_r in H. exists "", "". split; [reflexivity|].
      apply nullable_spec; assumption.
    + apply orb_true_iff in H as [H|H].
      * exists "", (String c s). split; [reflexivity|].
        apply nullable_spec; assumption.
      * apply IH in H as (pre & suf & -> & H).
        exists (String c pre), suf. split; [reflexivity|].
        apply deriv_sound; assumption.
  - intros (pre & suf & -> & H). revert r H.
    induction pre as [|c pre IH]; intros r H.
    + rewrite str_app_nil_l. apply nullable_spec in H.
      destruct suf; simpl; rewrite H; reflexivity.
    + rewrite str_app_cons. simpl. apply orb_true_iff. right.
      apply IH, deriv_complete; assumption.
Qed.

(** ** The scanners against the regular expressions *)

Lemma str_app_assoc (s u w : string) : (s +:+ u) +:+ w = s +:+ u +:+ w.
Proof.
  induction s as [|c s IH]; [reflexivity|].
  rewrite !str_app_cons, IH. reflexivity.
Qed.

Lemma strip_prefix_spec (p s r : string) :
  strip_prefix p s = Some r <-> s = p +:+ r.
Proof.
  revert s. induction p as [|a p IH]; intros s; simpl.
  - rewrite str_app_nil_l. split; congruence.
  - rewrite str_app_cons. destruct s as [|b s]; [split; discriminate|].
    destruct (Ascii.eqb_spec a b) as [->|Hne].
    + rewrite IH. split; congruence.
    + split; [discriminate | congruence].
Qed.

Lemma span_digits_spec (s : string) :
  s = (span_digits s).1 +:+ (span_digits s).2 /\
  all_digits (span_digits s).1 = true /\
  no_leading_digit (span_digits s).2.
Proof.
  induction s as [|c s (IH1 & IH2 & IH3)]; simpl; [auto|].
  destruct (is_digit c) eqn:Hc.
  - destruct (span_digits s) as [d r]; simpl in *.
    rewrite str_app_cons, Hc, IH2, <- IH1. auto.
  - simpl. auto.
Qed.

Lemma span_digits_app (d r : string) :
  all_digits d = true -> no_leading_digit r -> span_digits (d +:+ r) = (d, r).
Proof.
  intros Hd Hr. induction d as [|c d IH].
  - rewrite str_app_nil_l. destruct r as [|c r]; simpl in *; [reflexivity|].
    rewrite Hr. reflexivity.
  - simpl in Hd. apply andb_true_iff in Hd as [Hc Hd].
    rewrite str_app_cons. simpl. rewrite Hc, (IH Hd). reflexivity.
Qed.

Lemma re_lang_Cat (r1 r2 : re) (w : string) :
  re_lang (Cat r1 r2) w <->
  exists w1 w2, w = w1 +:+ w2 /\ re_lang r1 w1 /\ re_lang r2 w2.
Proof.
  split.
  - intros H. inversion H; subst. eauto.
  - intros (w1 & w2 & -> & H1 & H2). constructor; assumption.
Qed.

Lemma re_lang_Chr (c : ascii) (w : string) :
  re_lang (Chr c) w <-> w = String c "".
Proof.
  unfold Chr. split.
  - intros H. inversion H as [|p a Hp| | | | |]; subst.
    apply Ascii.eqb_eq in Hp. subst. reflexivity.
  - intros ->. constructor. apply Ascii.eqb_refl.
Qed.

Lemma re_lang_Lit (s w : string) : re_lang (Lit s) w <-> w = s.
Proof.
  revert w. induction s as [|c s IH]; intros w; simpl.
  - split; [intros H; inversion H; reflexivity | intros ->; constructor].
  - rewrite re_lang_Cat. split.
    + intros (w1 & w2 & -> & H1 & H2).
      apply re_lang_Chr in H1. apply IH in H2. subst. reflexivity.
    + intros ->. exists (String c ""), s. repeat split.
      * apply re_lang_Chr. reflexivity.
      * apply IH. reflexivity.
Qed.

Lemma re_lang_digit (w : string) :
  re_lang digit w <-> exists c, w = String c "" /\ is_digit c = true.
Proof.
  unfold digit. split.
  - intros H. inversion H; subst. eauto.
  - intros (c & -> & Hc). constructor. assumption.
Qed.

Lemma all_digits_app (s u : string) :
  all_digits (s +:+ u) = all_digits s && all_digits u.
Proof.
  induction s as [|c s IH]; [reflexivity|].
  rewrite str_app_cons. simpl. rewrite IH, andb_assoc. reflexivity.
Qed.

Lemma re_lang_Star_digit (w : string) :
  re_lang (Star digit) w <-> all_digits w = true.
Proof.
  split.
  - intros H. remember (Star digit) as r eqn:E.
    induction H as [| | | | | |r s1 s2 H1 _ H2 IH2]; try discriminate;
      [reflexivity|].
    injection E as ->. apply re_lang_digit in H1 as (c & -> & Hc).
    rewrite all_digits_app. simpl. rewrite Hc, IH2; reflexivity.
  - induction w as [|c w IH]; simpl; [constructor|].
    intros [Hc Hw]%andb_true_iff.
    change (String c w) with (String c "" +:+ w).
    constructor; [apply re_lang_digit; eauto | auto].
Qed.

Lemma re_lang_Plus_digit (w : string) :
  re_lang (Plus digit) w <-> w <> "" /\ all_digits w = true.
Proof.
  unfold Plus. rewrite re_lang_Cat. split.
  - intros (w1 & w2 & -> & H1 & H2).
    apply re_lang_digit in H1 as (c & -> & Hc).
    apply re_lang_Star_digit in H2.
    rewrite str_app_cons, str_app_nil_l. simpl. rewrite Hc, H2.
    split; [discriminate | reflexivity].
  - intros [Hne Hd]. destruct w as [|c w]; [contradiction|].
    simpl in Hd. apply andb_true_iff in Hd as [Hc Hw].
    exists (String c ""), w. repeat split.
    + apply re_lang_digit; eauto.
    + apply re_lang_Star_digit; assumption.
Qed.

(** [re.match(r'^chunk_(\d+)__', s)] succeeds exactly on the strings
    [chunk_<digits>__...]. *)
Lemma legacy_chunk_re_match (s : string) :
  re_match MemoStructure.legacy_chunk_re s = true <->
  exists g rest,
    s = "chunk_" +:+ g +:+ "__" +:+ rest /\ g <> "" /\ all_digits g = true.
Proof.
  rewrite re_match_spec. unfold MemoStructure.legacy_chunk_re. split.
  - intros (pre & suf & -> & H).
    apply re_lang_Cat in H as (w1 & w2 & -> & H1 & H2).
    apply re_lang_Lit in H1. subst w1.
    apply re_lang_Cat in H2 as (g & w3 & -> & Hg & H3).
    apply re_lang_Lit in H3. subst w3.
    apply re_lang_Plus_digit in Hg as [Hne Hd].
    exists g, suf. rewrite !str_app_assoc. auto.
  - intros (g & rest & -> & Hne & Hd).
    exists ("chunk_" +:+ g +:+ "__"), rest. split.
    + rewrite !str_app_assoc. reflexivity.
    + apply re_lang_Cat. exists "chunk_", (g +:+ "__").
      repeat split; [apply re_lang_Lit; reflexivity|].
      apply re_lang_Cat. exists g, "__".
      repeat split; [apply re_lang_Plus_digit; auto|].
      apply re_lang_Lit; reflexivity.
Qed.

(** The scanner returns group 1 of that match. *)
Lemma legacy_chunk_group_spec (s g : string) :
  MemoStructure.legacy_chunk_group s = Some g <->
  exists rest,
    s = "chunk_" +:+ g +:+ "__" +:+ rest /\ g <> "" /\ all_digits g = true.
Proof.
  unfold MemoStructure.legacy_chunk_group. split.
  - destruct (strip_prefix "chunk_" s) as [s1|] eqn:E1; [|discriminate].
    apply strip_prefix_spec in E1. subst s.
    destruct (span_digits_spec s1) as (Hs1 & Hd & _).
    destruct (span_digits s1) as [g1 r1]. cbn [fst snd] in *.
    destruct (strip_prefix "__" r1) as [rest|] eqn:E2;
      destruct g1 as [|c g1]; try discriminate.
    apply strip_prefix_spec in E2. subst r1.
    intros [= <-]. exists rest. rewrite Hs1.
    split; [reflexivity|]. split; [discriminate | assumption].
  - intros (rest & -> & Hne & Hd).
    assert (strip_prefix "chunk_" ("chunk_" +:+ g +:+ "__" +:+ rest)
            = Some (g +:+ "__" +:+ rest)) as ->
      by (apply strip_prefix_spec; reflexivity).
    rewrite span_digits_app; [|assumption|reflexivity].
    destruct g as [|c g]; [contradiction|].
    assert (strip_prefix "__" ("__" +:+ rest) = Some rest) as ->
      by (apply strip_prefix_spec; reflexivity).
    reflexivity.
Qed.

Lemma legacy_chunk_group_re_match (s : string) :
  MemoStructure.legacy_chunk_group s <> None <->
  re_match MemoStructure.legacy_chunk_re s = true.
Proof.
  rewrite legacy_chunk_re_match. split.
  - destruct (MemoStructure.legacy_chunk_group s) as [g|] eqn:E;
      [|intros H; contradiction H; reflexivity].
    intros _. apply legacy_chunk_group_spec in E as (rest & H). eauto.
  - intros (g & rest & H).
    assert (MemoStructure.legacy_chunk_group s = Some g) as ->
      by (apply legacy_chunk_group_spec; eauto).
    discriminate.
Qed.


(** The scanner returns the two groups of that match, each the longest
    run of digits at its place. *)
Lemma chunking_groups_spec (s g1 g2 : string) :
  MemoStructure.chunking_groups s = Some (g1, g2) <->
  exists rest,
    s = "c" +:+ g1 +:+ "/" +:+ g2 +:+ rest /\
    (g1 <> "" /\ all_digits g1 = true) /\
    (g2 <> "" /\ all_digits g2 = true) /\
    no_leading_digit rest.
Proof.
  unfold MemoStructure.chunking_groups. split.
  - destruct (strip_prefix (value CHUNK) s) as [s1|] eqn:E1; [|discriminate].
    apply strip_prefix_spec in E1. subst s.
    destruct (span_digits_spec s1) as (Hs1 & Hd1 & _).
    destruct (span_digits s1) as [d1 r1]. cbn [fst snd] in *.
    destruct d1 as [|c1 d1]; [discriminate|].
    destruct r1 as [|a s2]; [discriminate|].
    destruct (Ascii.eqb_spec a "/") as [->|Hne];
      [|destruct a as [[] [] [] [] [] [] [] []]; try discriminate;
        contradiction Hne; reflexivity].
    destruct (span_digits_spec s2) as (Hs2 & Hd2 & Hr2).
    destruct (span_digits s2) as [d2 r2]. cbn [fst snd] in *.
    destruct d2 as [|c2 d2]; [discriminate|].
    intros [= <- <-]. exists r2. rewrite Hs1, Hs2.
    repeat split; (reflexivity || discriminate || assumption).
  - intros (rest & -> & [Hn1 Hd1] & [Hn2 Hd2] & Hr).
    assert (strip_prefix (value CHUNK)
              ("c" +:+ g1 +:+ "/" +:+ g2 +:+ rest)
            = Some (g1 +:+ "/" +:+ g2 +:+ rest)) as ->
      by (apply strip_prefix_spec; reflexivity).
    rewrite span_digits_app; [|assumption|reflexivity].
    destruct g1 as [|c1 g1]; [contradiction|].
    change ("/" +:+ g2 +:+ rest) with (String "/" (g2 +:+ rest)).
    cbv iota beta.
    rewrite span_digits_app by assumption.
    destruct g2 as [|c2 g2]; [contradiction|]. reflexivity.
Qed.


(** ** MemoStructure *)

Lemma split_not_nil (sep : ascii) (s : string) : split sep s <> [].
Proof.
  destruct s as [|c s]; simpl; [discriminate|].
  destruct (Ascii.eqb c sep); [discriminate|].
  destruct (split sep s); discriminate.
Qed.


Lemma parse_standardized_format_flag (f : string) (s : MemoStructure.t) :
  MemoStructure.parse_standardized_format f = Ok s ->
  MemoStructure.is_standardized_format s = true.
Proof.
  unfold MemoStructure.parse_standardized_format.
  destruct (split "." f) as [|e [|c [|k [|? ?]]]]; try discriminate.
  destruct (if negb _ then _ else _) as [ci tc].
  intros [= <-]. reflexivity.
Qed.

(** Under the legacy grammar the descriptor is read off the content
    alone. *)
Lemma from_transaction_legacy (tx : pydict) (s : MemoStructure.t) :
  MemoStructure.from_transaction tx = Ok s ->
  MemoStructure.is_standardized_format s = false ->
  exists data,
    dict_get tx "memo_data" (PStr "") = PStr data /\
    MemoStructure.is_chunked s
      = bool_decide (MemoStructure.legacy_chunk_group data <> None) /\
    MemoStructure.chunk_index s
      = int_of_digits <$> MemoStructure.legacy_chunk_group data /\
    MemoStructure.compression_type s
      = match MemoStructure.legacy_chunk_group data with
        | Some g1 =>
            if String.eqb g1 "1" && contains "COMPRESSED__" data
            then Some BROTLI else None
        | None => None
        end.
Proof.
  unfold MemoStructure.from_transaction.
  destruct (MemoStructure.is_standardized_memo_format _) as [[|]|e];
    simpl; try discriminate.
  - destruct (dict_get tx "memo_format" PNone) as [|b|f|t]; try discriminate.
    destruct (MemoStructure.parse_standardized_format f) as [st|e] eqn:P;
      simpl; try discriminate.
    apply parse_standardized_format_flag in P.
    intros [= <-]. simpl. congruence.
  - destruct (dict_get tx "memo_data" (PStr "")) as [|b|data|t];
      try discriminate.
    intros [= <-] _. exists data. simpl. repeat split.
    destruct (MemoStructure.legacy_chunk_group data) as [g1|]; [|reflexivity].
    destruct (String.eqb g1 "1"); [|reflexivity].
    destruct (contains "COMPRESSED__" data); reflexivity.
Qed.

(** ** Ordering of timestamps *)

Lemma string_ltb_irrefl (s : string) : String.ltb s s = false.
Proof.
  unfold String.ltb. pose proof (String.compare_antisym s s) as H.
  destruct (String.compare s s); simpl in H; congruence.
Qed.

Lemma string_ltb_asym (s u : string) :
  String.ltb s u = true -> String.ltb u s = false.
Proof.
  unfold String.ltb. rewrite (String.compare_antisym u s).
  destruct (String.compare s u); simpl; congruence.
Qed.

Lemma py_lt_irrefl (v : pyval) : v <> PNone -> py_lt v v = Ok false.
Proof.
  destruct v as [|b|s|t]; simpl; intros H; try congruence.
  - destruct b; reflexivity.
  - rewrite string_ltb_irrefl; reflexivity.
  - rewrite Z.ltb_irrefl; reflexivity.
Qed.

Lemma py_lt_asym (a b : pyval) : py_lt a b = Ok true -> py_lt b a = Ok false.
Proof.
  destruct a as [|x|x|x], b as [|y|y|y]; simpl; try discriminate; intros [= H].
  - destruct x, y; simpl in *; congruence.
  - rewrite (string_ltb_asym _ _ H); reflexivity.
  - f_equal. apply Z.ltb_lt in H. apply Z.ltb_ge. lia.
Qed.

Lemma py_lt_neq (a b : pyval) : py_lt a b = Ok true -> a <> b.
Proof.
  intros H ->. destruct b as [|y|y|y]; try discriminate.
  all: rewrite py_lt_irrefl in H; congruence.
Qed.

(** ** MemoGroup *)

Lemma append_neq {A} (l : list A) (x : A) : l ++ [x] <> l.
Proof.
  intros H. apply (f_equal (@length A)) in H.
  rewrite length_app in H. simpl in H. lia.
Qed.

Lemma snoc_eq_cons {A} (l : list A) (x y : A) : l ++ [x] = y :: l -> x = y.
Proof.
  revert y. induction l as [|a l IH]; intros y H; simpl in H.
  - congruence.
  - injection H as -> H. apply IH; assumption.
Qed.

(** Replacing a fragment by a different one always changes the list. *)
Lemma list_remove_snoc_neq (x y : pydict) (l l' : list pydict) :
  MemoGroup.list_remove x l = Ok l' -> y <> x -> l' ++ [y] <> l.
Proof.
  revert l'. induction l as [|a l IH]; intros l' H Hne; simpl in H.
  - discriminate.
  - case_bool_decide as E.
    + injection H as <-. subst a. intros HH.
      apply snoc_eq_cons in HH. contradiction.
    + destruct (MemoGroup.list_remove x l) as [l''|e]; simpl in H;
        [|discriminate].
      injection H as <-. simpl. intros [= HH].
      eapply IH; eauto.
Qed.

Lemma list_remove_last (x : pydict) (l : list pydict) :
  x ∉ l -> MemoGroup.list_remove x (l ++ [x]) = Ok l.
Proof.
  induction l as [|a l IH]; intros H; simpl.
  - rewrite bool_decide_eq_true_2; reflexivity.
  - rewrite bool_decide_eq_false_2 by (intros ->; apply H; left).
    rewrite IH; [reflexivity|]. intros HH. apply H. right. assumption.
Qed.

Lemma find_existing_free (l : list pydict) (idx : option Z) :
  index_free l idx -> MemoGroup.find_existing l idx = Ok None.
Proof.
  induction l as [|m l IH]; intros H; simpl; [reflexivity|].
  destruct (H m) as (s & -> & Hs); [left|]. simpl.
  rewrite bool_decide_eq_false_2 by assumption.
  apply IH. intros m' Hm'. apply H. right. assumption.
Qed.

Lemma find_existing_snoc (l : list pydict) (idx : option Z) (x : pydict)
    (s : MemoStructure.t) :
  index_free l idx ->
  MemoStructure.from_transaction x = Ok s ->
  MemoStructure.chunk_index s = idx ->
  MemoGroup.find_existing (l ++ [x]) idx = Ok (Some x).
Proof.
  induction l as [|m l IH]; intros H Hx Hi; simpl.
  - rewrite Hx. simpl. rewrite bool_decide_eq_true_2 by assumption.
    reflexivity.
  - destruct (H m) as (s' & -> & Hs); [left|]. simpl.
    rewrite bool_decide_eq_false_2 by assumption.
    apply IH; auto. intros m' Hm'. apply H. right. assumption.
Qed.

Lemma index_free_not_elem (l : list pydict) (idx : option Z) (x : pydict)
    (s : MemoStructure.t) :
  index_free l idx ->
  MemoStructure.from_transaction x = Ok s ->
  MemoStructure.chunk_index s = idx ->
  x ∉ l.
Proof.
  intros H Hx Hi Hin. destruct (H x Hin) as (s' & Hs' & Hne).
  congruence.
Qed.

Lemma dict_get_nonempty (d : pydict) (k : string) (dflt : pyval) :
  dict_get d k dflt <> dflt -> MemoGroup.dict_truthy d = true.
Proof.
  intros H. unfold MemoGroup.dict_truthy.
  rewrite bool_decide_eq_false_2; [reflexivity|].
  intros ->. apply H. unfold dict_get. rewrite lookup_empty. reflexivity.
Qed.

Lemma add_memo_legacy (g : MemoGroup.t) (tx : pydict) (s : MemoStructure.t)
    (i : Z) :
  legacy_fragment g tx s i ->
  MemoGroup.add_memo g tx =
    (existing_memo ← MemoGroup.find_existing (MemoGroup.memos g) (Some i);
     match existing_memo with
     | Some existing =>
         if MemoGroup.dict_truthy existing then
           earlier ← py_lt (dict_get tx "datetime" PNone)
                           (dict_get existing "datetime" PNone);
           if earlier : bool then
             l ← MemoGroup.list_remove existing (MemoGroup.memos g);
             Ok (true, MemoGroup.set_memos g (l ++ [tx]))
           else Ok (false, g)
         else Ok (true, MemoGroup.append g tx)
     | None => Ok (true, MemoGroup.append g tx)
     end).
Proof.
  intros (Hr & Hg & Hs & Hstd & Hi). unfold MemoGroup.add_memo.
  rewrite Hr, Hg, Hs. simpl.
  rewrite !bool_decide_eq_true_2 by reflexivity. simpl.
  rewrite Hstd, Hi. reflexivity.
Qed.

Lemma legacy_fragment_append (g : MemoGroup.t) (x tx : pydict)
    (s : MemoStructure.t) (i : Z) :
  legacy_fragment g tx s i -> legacy_fragment (MemoGroup.append g x) tx s i.
Proof. intros H. exact H. Qed.

(** C3: of two legacy fragments with the same chunk index, the one with
    the strictly earlier timestamp is the one the group holds at that
    index, and the other is not held, whichever of the two is added
    first. *)
Theorem earliest_timestamp_wins (g : MemoGroup.t) (A B : pydict)
    (sA sB : MemoStructure.t) (i : Z) :
  legacy_fragment g A sA i ->
  legacy_fragment g B sB i ->
  py_lt (dict_get B "datetime" PNone) (dict_get A "datetime" PNone)
    = Ok true ->
  index_free (MemoGroup.memos g) (Some i) ->
  add_both g A B = Ok (MemoGroup.append g B) /\
  add_both g B A = Ok (MemoGroup.append g B) /\
  (B ∈ MemoGroup.memos (MemoGroup.append g B)) /\
  (A ∉ MemoGroup.memos (MemoGroup.append g B)) /\
  MemoGroup.find_existing (MemoGroup.memos (MemoGroup.append g B)) (Some i)
    = Ok (Some B).
Proof.
  intros HA HB Hlt Hfree.
  pose proof HA as (HAr & _ & HAs & _ & HAi).
  pose proof HB as (HBr & _ & HBs & _ & HBi).
  assert (HAne : MemoGroup.dict_truthy A = true).
  { apply (dict_get_nonempty A "transaction_result" PNone). congruence. }
  assert (HBne : MemoGroup.dict_truthy B = true).
  { apply (dict_get_nonempty B "transaction_result" PNone). congruence. }
  assert (HAB : A <> B).
  { intros ->. apply py_lt_neq in Hlt. congruence. }
  assert (HAnot : A ∉ MemoGroup.memos g)
    by (eapply index_free_not_elem; eauto).
  repeat split.
  - unfold add_both. rewrite (add_memo_legacy g A sA i HA).
    rewrite find_existing_free by assumption. simpl.
    rewrite (add_memo_legacy _ B sB i (legacy_fragment_append g A B sB i HB)).
    simpl. rewrite (find_existing_snoc _ _ _ sA) by assumption. simpl.
    rewrite HAne, Hlt. simpl.
    rewrite list_remove_last by assumption. reflexivity.
  - unfold add_both. rewrite (add_memo_legacy g B sB i HB).
    rewrite find_existing_free by assumption. simpl.
    rewrite (add_memo_legacy _ A sA i (legacy_fragment_append g B A sA i HA)).
    simpl. rewrite (find_existing_snoc _ _ _ sB) by assumption. simpl.
    rewrite HBne, (py_lt_asym _ _ Hlt). reflexivity.
  - simpl. apply elem_of_app. right. left.
  - simpl. intros [H|H]%elem_of_app; [contradiction|].
    apply list_elem_of_singleton in H. contradiction.
  - simpl. eapply find_existing_snoc; eauto.
Qed.

Lemma earliest_timestamp_wins_witness :
  let g := MemoGroup.mk (PStr "G1") [legacy_tx "G1" "chunk_1__COMPRESSED__p" 3]
                        None in
  let A := legacy_tx "G1" "chunk_2__late" 10 in
  let B := legacy_tx "G1" "chunk_2__early" 5 in
  add_both g A B = Ok (MemoGroup.append g B) /\
  add_both g B A = Ok (MemoGroup.append g B) /\
  (B ∈ MemoGroup.memos (MemoGroup.append g B)) /\
  (A ∉ MemoGroup.memos (MemoGroup.append g B)) /\
  MemoGroup.find_existing (MemoGroup.memos (MemoGroup.append g B)) (Some 2)
    = Ok (Some B).
Proof.
  intros g A B.
  apply (earliest_timestamp_wins g A B (legacy_structure "G1" 2 None)
           (legacy_structure "G1" 2 None) 2).
  - repeat split; vm_compute; reflexivity.
  - repeat split; vm_compute; reflexivity.
  - vm_compute; reflexivity.
  - intros m Hm. apply list_elem_of_singleton in Hm. subst m.
    exists (legacy_structure "G1" 1 (Some BROTLI)).
    split; [vm_compute; reflexivity | discriminate].
Defined.

(** The same outcome for a group made from the first of the two
    fragments: the group ends with [B] alone, whichever fragment created
    it. *)
Lemma created_group_earliest_wins (A B : pydict) (sA sB : MemoStructure.t)
    (i : Z) :
  let gid := dict_get A "memo_type" PNone in
  legacy_fragment (MemoGroup.mk gid [] None) A sA i ->
  legacy_fragment (MemoGroup.mk gid [] None) B sB i ->
  py_lt (dict_get B "datetime" PNone) (dict_get A "datetime" PNone)
    = Ok true ->
  (g ← MemoGroup.create_from_transaction A; MemoGroup.add_memo g B)
    = Ok (true, MemoGroup.mk gid [B] (Some sA)) /\
  (g ← MemoGroup.create_from_transaction B; MemoGroup.add_memo g A)
    = Ok (false, MemoGroup.mk gid [B] (Some sB)).
Proof.
  intros gid HA HB Hlt.
  pose proof HA as (HAr & _ & HAs & _ & HAi).
  pose proof HB as (HBr & HBg & HBs & _ & HBi). simpl in HBg.
  assert (HAne : MemoGroup.dict_truthy A = true).
  { apply (dict_get_nonempty A "transaction_result" PNone). congruence. }
  assert (HBne : MemoGroup.dict_truthy B = true).
  { apply (dict_get_nonempty B "transaction_result" PNone). congruence. }
  assert (Hfree : index_free [] (Some i)).
  { intros m Hm. apply elem_of_nil in Hm. contradiction. }
  unfold MemoGroup.create_from_transaction. rewrite HAs, HBs, HBg. simpl.
  fold gid. split.
  - rewrite (add_memo_legacy (MemoGroup.mk gid [A] (Some sA)) B sB i HB).
    cbn [MemoGroup.memos].
    rewrite (find_existing_snoc [] _ _ sA Hfree HAs HAi
             : MemoGroup.find_existing [A] _ = _). simpl.
    rewrite HAne, Hlt. simpl. rewrite bool_decide_eq_true_2 by reflexivity.
    reflexivity.
  - rewrite (add_memo_legacy (MemoGroup.mk gid [B] (Some sB)) A sA i HA).
    cbn [MemoGroup.memos].
    rewrite (find_existing_snoc [] _ _ sB Hfree HBs HBi
             : MemoGroup.find_existing [B] _ = _). simpl.
    rewrite HBne, (py_lt_asym _ _ Hlt). reflexivity.
Qed.

(** C10: a legacy fragment that arrives at an occupied chunk index with
    the same timestamp as the fragment already there is refused: the
    group is left as it was and the call returns [False]. *)
Theorem equal_timestamps_keep_existing (g : MemoGroup.t) (tx existing : pydict)
    (s : MemoStructure.t) (i : Z) :
  legacy_fragment g tx s i ->
  MemoGroup.find_existing (MemoGroup.memos g) (Some i) = Ok (Some existing) ->
  dict_get tx "datetime" PNone = dict_get existing "datetime" PNone ->
  dict_get tx "datetime" PNone <> PNone ->
  MemoGroup.add_memo g tx = Ok (false, g).
Proof.
  intros Hf Hfind Heq Hdt.
  rewrite (add_memo_legacy g tx s i Hf), Hfind. simpl.
  rewrite (dict_get_nonempty existing "datetime" PNone) by congruence.
  rewrite <- Heq, py_lt_irrefl by assumption. reflexivity.
Qed.

Lemma equal_timestamps_keep_existing_witness :
  let first := legacy_tx "G1" "chunk_2__first" 7 in
  let g := MemoGroup.mk (PStr "G1") [first] None in
  MemoGroup.add_memo g (legacy_tx "G1" "chunk_2__second" 7) = Ok (false, g).
Proof.
  intros first g.
  apply (equal_timestamps_keep_existing g _ first
           (legacy_structure "G1" 2 None) 2).
  - repeat split; vm_compute; reflexivity.
  - vm_compute; reflexivity.
  - vm_compute; reflexivity.
  - vm_compute; discriminate.
Defined.

Lemma bool_decide_negb_true (P : Prop) `{Decision P} :
  ~ P -> negb (bool_decide P) = true.
Proof.
  intros H0. rewrite bool_decide_eq_false_2 by assumption. reflexivity.
Qed.

Ltac add_memo_cases :=
  repeat match goal with
  | |- context [if negb (bool_decide ?P) then _ else _] =>
      destruct (negb (bool_decide P))
  | |- context [mbind _ ?r] => destruct r as [?|?] eqn:?; simpl
  | |- context [if ?c then _ else _] => destruct c eqn:?
  | |- context [match ?c with Some _ => _ | None => _ end] => destruct c eqn:?
  | |- Raise _ = Ok _ -> _ => discriminate
  end.

(** [add_memo] touches neither the group id nor the structure, and its
    result tells whether the fragment list has changed. *)
Lemma add_memo_reports_mutation (g g' : MemoGroup.t) (tx : pydict) (b : bool) :
  MemoGroup.add_memo g tx = Ok (b, g') ->
  MemoGroup.group_id g' = MemoGroup.group_id g /\
  MemoGroup.structure g' = MemoGroup.structure g /\
  (b = true <-> MemoGroup.memos g' <> MemoGroup.memos g).
Proof.
  unfold MemoGroup.add_memo. add_memo_cases; intros [= <- <-]; simpl;
    (split; [reflexivity|]); (split; [reflexivity|]);
    first
      [ split; [discriminate | intros H; contradiction H; reflexivity]
      | split; [intros _; apply append_neq | reflexivity]
      | split; [intros _ | reflexivity] ].
  all: eapply list_remove_snoc_neq; [eassumption|]; intros ->.
  all: match goal with
       | H : py_lt _ _ = Ok true |- _ => apply py_lt_neq in H; congruence
       end.
Qed.

(** C5: [add_memo] refuses, with the fragment list untouched, a
    transaction that is not settled with [tesSUCCESS], one of another
    group, and a current-grammar one whose encryption marker, compression
    marker or total-chunk count differs from the group's structure; and
    whenever it returns, it returns [True] exactly when the fragment list
    has changed. *)
Theorem add_memo_refusals (g : MemoGroup.t) (tx : pydict) :
  (dict_get tx "transaction_result" PNone <> PStr "tesSUCCESS" ->
   MemoGroup.add_memo g tx = Ok (false, g)) /\
  (dict_get tx "memo_type" PNone <> MemoGroup.group_id g ->
   MemoGroup.add_memo g tx = Ok (false, g)) /\
  (forall new st,
     MemoStructure.from_transaction tx = Ok new ->
     MemoStructure.is_standardized_format new = true ->
     MemoGroup.structure g = Some st ->
     MemoStructure.encryption_type new <> MemoStructure.encryption_type st \/
     MemoStructure.compression_type new <> MemoStructure.compression_type st \/
     MemoStructure.total_chunks new <> MemoStructure.total_chunks st ->
     MemoGroup.add_memo g tx = Ok (false, g)) /\
  (forall b g',
     MemoGroup.add_memo g tx = Ok (b, g') ->
     MemoGroup.group_id g' = MemoGroup.group_id g /\
     MemoGroup.structure g' = MemoGroup.structure g /\
     (b = true <-> MemoGroup.memos g' <> MemoGroup.memos g)).
Proof.
  split; [|split; [|split]].
  - intros H. unfold MemoGroup.add_memo.
    rewrite bool_decide_negb_true by assumption. reflexivity.
  - intros H. unfold MemoGroup.add_memo.
    destruct (negb (bool_decide (_ = PStr "tesSUCCESS"))); [reflexivity|].
    rewrite bool_decide_negb_true by assumption. reflexivity.
  - intros new st Hnew Hstd Hst Hdiff. unfold MemoGroup.add_memo.
    destruct (negb (bool_decide (_ = PStr "tesSUCCESS"))); [reflexivity|].
    destruct (negb (bool_decide (_ = MemoGroup.group_id g))); [reflexivity|].
    rewrite Hnew. simpl. rewrite Hstd.
    unfold MemoGroup._is_structure_consistent. rewrite Hst. simpl.
    assert (bool_decide (MemoStructure.encryption_type new
                         = MemoStructure.encryption_type st)
            && bool_decide (MemoStructure.compression_type new
                            = MemoStructure.compression_type st)
            && bool_decide (MemoStructure.total_chunks new
                            = MemoStructure.total_chunks st) = false) as ->.
    { destruct Hdiff as [H|[H|H]];
        rewrite (bool_decide_eq_false_2 _ H);
        rewrite ?andb_false_r; reflexivity. }
    reflexivity.
  - intros b g'. apply add_memo_reports_mutation.
Qed.

Lemma add_memo_refusals_witness :
  let st := MemoStructure.mk true (Some 1) (Some 3) (PStr "G1")
                             (Some BROTLI) None true in
  let g := MemoGroup.mk (PStr "G1") [standard_tx "G1" "-.b.c1/3" "p" 1]
                        (Some st) in
  MemoGroup.create_from_transaction (standard_tx "G1" "-.b.c1/3" "p" 1)
    = Ok g /\
  MemoGroup.add_memo
    g (<["transaction_result" := PStr "tecUNFUNDED"]>
         (standard_tx "G1" "-.b.c2/3" "q" 2)) = Ok (false, g) /\
  MemoGroup.add_memo g (standard_tx "G2" "-.b.c2/3" "q" 2) = Ok (false, g) /\
  MemoGroup.add_memo g (standard_tx "G1" "e.b.c2/3" "q" 2) = Ok (false, g) /\
  MemoGroup.add_memo g (standard_tx "G1" "-.-.c2/3" "q" 2) = Ok (false, g) /\
  MemoGroup.add_memo g (standard_tx "G1" "-.b.c2/4" "q" 2) = Ok (false, g) /\
  (true = true <->
   MemoGroup.memos (MemoGroup.append g (standard_tx "G1" "-.b.c2/3" "q" 2))
   <> MemoGroup.memos g).
Proof.
  intros st g.
  split; [vm_compute; reflexivity|].
  split.
  { match goal with |- MemoGroup.add_memo _ ?t = _ =>
      apply (proj1 (add_memo_refusals g t)) end.
    vm_compute. discriminate. }
  split.
  { match goal with |- MemoGroup.add_memo _ ?t = _ =>
      apply (proj1 (proj2 (add_memo_refusals g t))) end.
    vm_compute. discriminate. }
  split.
  { match goal with |- MemoGroup.add_memo _ ?t = _ =>
      apply (proj1 (proj2 (proj2 (add_memo_refusals g t)))
               (MemoStructure.mk true (Some 2) (Some 3) (PStr "G1")
                                 (Some BROTLI) (Some ECDH) true) st) end;
      [vm_compute; reflexivity | reflexivity | reflexivity |].
    left. discriminate. }
  split.
  { match goal with |- MemoGroup.add_memo _ ?t = _ =>
      apply (proj1 (proj2 (proj2 (add_memo_refusals g t)))
               (MemoStructure.mk true (Some 2) (Some 3) (PStr "G1")
                                 None None true) st) end;
      [vm_compute; reflexivity | reflexivity | reflexivity |].
    right. left. discriminate. }
  split.
  { match goal with |- MemoGroup.add_memo _ ?t = _ =>
      apply (proj1 (proj2 (proj2 (add_memo_refusals g t)))
               (MemoStructure.mk true (Some 2) (Some 4) (PStr "G1")
                                 (Some BROTLI) None true) st) end;
      [vm_compute; reflexivity | reflexivity | reflexivity |].
    right. right. discriminate. }
  apply (proj2 (proj2 (proj2
           (add_memo_refusals g (standard_tx "G1" "-.b.c2/3" "q" 2))))).
  vm_compute. reflexivity.
Defined.

(** ** Current-grammar detection *)

Lemma re_fullmatch_spec (r : re) (s : string) :
  re_fullmatch r s = true <-> re_lang r s.
Proof.
  revert r. induction s as [|c s IH]; intros r; simpl.
  - apply nullable_spec.
  - rewrite IH. split; [apply deriv_sound | apply deriv_complete].
Qed.

Lemma str_in_two (s a b : string) :
  MemoStructure.str_in s [a; b] = true <-> s = a \/ s = b.
Proof.
  unfold MemoStructure.str_in. simpl. rewrite orb_false_r, orb_true_iff.
  rewrite !String.eqb_eq. reflexivity.
Qed.



(** C1: on the format string ["-.-.c1/4x"] the detection answers [True],
    although its third segment ["c1/4x"] is neither ["-"] nor exactly of
    the form [c<uint>/<uint>]: [re.match] only looks at the start of the
    segment. *)
Theorem is_standardized_memo_format_trailing_text :
  split "." "-.-.c1/4x" = ["-"; "-"; "c1/4x"] /\
  "c1/4x" <> "-" /\
  ~ re_lang MemoStructure.chunking_re "c1/4x" /\
  MemoStructure.is_standardized_memo_format (PStr "-.-.c1/4x") = Ok true.
Proof.
  split; [reflexivity|]. split; [discriminate|]. split; [|reflexivity].
  intros H. apply re_fullmatch_spec in H. vm_compute in H. discriminate.
Qed.


(** ** Classification *)




(** C2: the classification is not total.  On a record whose memo flag is
    set and whose [memo_data] is present but null, with no format string,
    it raises [TypeError] instead of returning one of the four outcomes:
    the default [""] only covers an absent [memo_data]. *)
Theorem match_raises_on_null_memo_data :
  dict_get {[ "has_memos" := PBool true; "memo_data" := PNone ]}
           "memo_data" (PStr "") = PNone /\
  MemoStructure.from_transaction
    {[ "has_memos" := PBool true; "memo_data" := PNone ]} = Raise TypeError /\
  StructuralPattern.match_
    {[ "has_memos" := PBool true; "memo_data" := PNone ]} = Raise TypeError.
Proof. repeat split; vm_compute; reflexivity. Qed.

(** ** Legacy derivation *)

(** C8: the transaction with format ["garbage"] and content
    ["chunk_1__COMPRESSED__xyz"] needs legacy grouping, and its descriptor
    is chunked, with chunk index 1 and compression marker [BROTLI]; and
    under the legacy grammar a descriptor carries the compression marker
    only when its chunk index is 1 and the content holds [COMPRESSED__],
    and for any other chunk index the marker is unknown. *)
Theorem legacy_compression_marker (tx : pydict) :
  (truthy (dict_get tx "has_memos" PNone) = true ->
   dict_get tx "memo_format" PNone = PStr "garbage" ->
   dict_get tx "memo_data" (PStr "") = PStr "chunk_1__COMPRESSED__xyz" ->
   StructuralPattern.match_ tx = Ok StructuralPattern.NEEDS_LEGACY_GROUPING /\
   exists s, MemoStructure.from_transaction tx = Ok s /\
             MemoStructure.is_standardized_format s = false /\
             MemoStructure.is_chunked s = true /\
             MemoStructure.chunk_index s = Some 1 /\
             MemoStructure.compression_type s = Some BROTLI) /\
  (forall s,
     MemoStructure.from_transaction tx = Ok s ->
     MemoStructure.is_standardized_format s = false ->
     (MemoStructure.compression_type s = Some BROTLI ->
      MemoStructure.chunk_index s = Some 1 /\
      exists data, dict_get tx "memo_data" (PStr "") = PStr data /\
                   contains "COMPRESSED__" data = true) /\
     (MemoStructure.chunk_index s <> Some 1 ->
      MemoStructure.compression_type s = None)).
Proof.
  split.
  - intros Hm Hf Hd.
    assert (exists s, MemoStructure.from_transaction tx = Ok s /\
              MemoStructure.is_standardized_format s = false /\
              MemoStructure.is_chunked s = true /\
              MemoStructure.chunk_index s = Some 1 /\
              MemoStructure.compression_type s = Some BROTLI)
      as (s & Hs & Hstd & Hrest).
    { unfold MemoStructure.from_transaction. rewrite Hf, Hd.
      eexists. split; [vm_compute; reflexivity|]. repeat split. }
    split; [|eauto].
    unfold StructuralPattern.match_. rewrite Hm, Hs. simpl.
    rewrite Hstd, Hd. reflexivity.
  - intros s Hs Hstd.
    destruct (from_transaction_legacy tx s Hs Hstd)
      as (data & Hd & _ & Hi & Hc).
    rewrite Hi, Hc.
    destruct (MemoStructure.legacy_chunk_group data) as [g1|]; simpl.
    + destruct (String.eqb_spec g1 "1") as [->|Hne]; simpl.
      * split; [|intros H; contradiction H; reflexivity].
        destruct (contains "COMPRESSED__" data) eqn:E; [|discriminate].
        intros _. split; [reflexivity | eauto].
      * split; [discriminate | reflexivity].
    + split; [discriminate | reflexivity].
Qed.

(** The first-fragment test compares the text of the index with ["1"]:
    a fragment numbered ["01"] has chunk index 1 and no compression
    marker. *)
Example legacy_leading_zero :
  MemoStructure.from_transaction
    {[ "memo_type" := PStr "G1";
       "memo_data" := PStr "chunk_01__COMPRESSED__xyz" ]}
  = Ok (legacy_structure "G1" 1 None).
Proof. vm_compute. reflexivity. Qed.

Lemma legacy_compression_marker_witness :
  let tx1 : pydict := {[ "has_memos" := PBool true;
                     "memo_type" := PStr "G1";
                     "memo_format" := PStr "garbage";
                     "memo_data" := PStr "chunk_1__COMPRESSED__xyz" ]} in
  let tx2 : pydict := {[ "has_memos" := PBool true;
                     "memo_type" := PStr "G1";
                     "memo_format" := PStr "garbage";
                     "memo_data" := PStr "chunk_2__COMPRESSED__xyz" ]} in
  (StructuralPattern.match_ tx1 = Ok StructuralPattern.NEEDS_LEGACY_GROUPING /\
   exists s, MemoStructure.from_transaction tx1 = Ok s /\
             MemoStructure.is_standardized_format s = false /\
             MemoStructure.is_chunked s = true /\
             MemoStructure.chunk_index s = Some 1 /\
             MemoStructure.compression_type s = Some BROTLI) /\
  MemoStructure.compression_type (legacy_structure "G1" 2 None) = None.
Proof.
  intros tx1 tx2. split.
  - apply (proj1 (legacy_compression_marker tx1)); vm_compute; reflexivity.
  - apply (proj2 (legacy_compression_marker tx2)
             (legacy_structure "G1" 2 None));
      [vm_compute; reflexivity | reflexivity | discriminate].
Defined.

(** ** MemoPattern: matching *)

Lemma slot_passes_true (slot : option matcher) (field : pyval) :
  MemoPattern.slot_passes slot field = Ok true <-> slot_holds slot field.
Proof.
  destruct slot as [[s|p]|]; simpl; [| |tauto].
  - destruct (String.eqb_spec s "") as [->|Hs]; simpl;
      [split; [discriminate | reflexivity]|].
    destruct field as [|b|v|t]; simpl;
      try (split;
           [ try destruct b; simpl; try discriminate;
             rewrite bool_decide_eq_false_2 by discriminate; discriminate
           | intros H; destruct (H eq_refl) as (? & ? & _); discriminate ]).
    destruct (String.eqb_spec v "") as [->|Hv]; simpl.
    + split; [discriminate | intros H].
      destruct (H eq_refl) as (v & [= <-] & Hv & _). contradiction.
    + split.
      * intros [= H] _. apply bool_decide_eq_true in H.
        injection H as ->. eauto.
      * intros H. destruct (H eq_refl) as (v' & [= <-] & _ & ->).
        rewrite bool_decide_eq_true_2; reflexivity.
  - destruct field as [|b|v|t]; simpl;
      try (split;
           [ try destruct b; discriminate
           | intros H; destruct (H eq_refl) as (? & ? & _); discriminate ]).
    destruct (String.eqb_spec v "") as [->|Hv]; simpl.
    + split; [discriminate | intros H].
      destruct (H eq_refl) as (v & [= <-] & Hv & _). contradiction.
    + split.
      * intros [= H] _. apply re_match_spec in H. eauto.
      * intros H. destruct (H eq_refl) as (v' & [= <-] & _ & Hm).
        apply re_match_spec in Hm. rewrite Hm. reflexivity.
Qed.

(** C4, amended: [matches] answers [True] exactly when each slot that is
    a compiled pattern or a string that is not empty finds its field to
    be a string, not empty, that satisfies it (equal to the string, or
    matched from its start by the pattern); a slot that is [None] or the
    empty string asks nothing, so the pattern without slots matches every
    transaction. *)
Theorem matches_iff (p : MemoPattern.t) (tx : pydict) :
  (MemoPattern.matches p tx = Ok true <->
   slot_holds (MemoPattern.memo_type p) (dict_get tx "memo_type" PNone) /\
   slot_holds (MemoPattern.memo_format p) (dict_get tx "memo_format" PNone) /\
   slot_holds (MemoPattern.memo_data p) (dict_get tx "memo_data" PNone)) /\
  MemoPattern.matches (MemoPattern.mk None None None) tx = Ok true.
Proof.
  split; [|reflexivity].
  rewrite <- !slot_passes_true. unfold MemoPattern.matches.
  destruct (MemoPattern.slot_passes (MemoPattern.memo_type p) _)
    as [[|]|e1]; simpl;
    [|split; [discriminate | intros ([=] & _)]
     |split; [discriminate | intros ([=] & _)]].
  destruct (MemoPattern.slot_passes (MemoPattern.memo_format p) _)
    as [[|]|e2]; simpl;
    [|split; [discriminate | intros (_ & [=] & _)]
     |split; [discriminate | intros (_ & [=] & _)]].
  destruct (MemoPattern.slot_passes (MemoPattern.memo_data p) _)
    as [[|]|e3]; simpl;
    [|split; [discriminate | intros (_ & _ & [=])]
     |split; [discriminate | intros (_ & _ & [=])]].
  tauto.
Qed.

(** C4, as stated, fails: the pattern whose [memo_type] is the empty
    string matches a transaction of type ["abc"], which does not equal
    it. *)
Lemma matches_empty_literal_counterexample :
  ~ (MemoPattern.matches (MemoPattern.mk (Some (Literal "")) None None)
                         {[ "memo_type" := PStr "abc" ]} = Ok true <->
     spec_matches (MemoPattern.mk (Some (Literal "")) None None)
                     {[ "memo_type" := PStr "abc" ]}).
Proof.
  intros [H _].
  destruct (H eq_refl) as ((v & Hv & Hs) & _).
  simpl in Hs. subst v. vm_compute in Hv. discriminate.
Qed.

(** ** MemoPattern: equality and hashing *)

Lemma compare_attrs_iff (a b : option matcher) :
  MemoPattern.compare_attrs a b = true <-> slot_equal a b.
Proof.
  destruct a as [[s|p]|], b as [[u|q]|]; simpl;
    rewrite ?String.eqb_eq; split; (congruence || tauto).
Qed.

Lemma compare_attrs_hash (a b : option matcher) :
  MemoPattern.compare_attrs a b = true ->
  MemoPattern.attr_hash a = MemoPattern.attr_hash b.
Proof.
  intros H. apply compare_attrs_iff in H.
  destruct a as [[s|p]|], b as [[u|q]|]; simpl in *; congruence || tauto.
Qed.

Lemma compare_attrs_refl (a : option matcher) :
  MemoPattern.compare_attrs a a = true.
Proof. apply compare_attrs_iff. destruct a as [[s|p]|]; simpl; auto. Qed.

Lemma compare_attrs_sym (a b : option matcher) :
  MemoPattern.compare_attrs a b = MemoPattern.compare_attrs b a.
Proof.
  destruct a as [[s|p]|], b as [[u|q]|]; simpl; auto using String.eqb_sym.
Qed.

Lemma compare_attrs_trans (a b c : option matcher) :
  MemoPattern.compare_attrs a b = true ->
  MemoPattern.compare_attrs b c = true ->
  MemoPattern.compare_attrs a c = true.
Proof.
  rewrite !compare_attrs_iff.
  destruct a as [[s|p]|], b as [[u|q]|], c as [[w|r]|]; simpl;
    congruence || tauto.
Qed.

Lemma MemoPattern_eq_refl (p : MemoPattern.t) : MemoPattern.eq p p = true.
Proof. unfold MemoPattern.eq. rewrite !compare_attrs_refl. reflexivity. Qed.

Lemma MemoPattern_eq_sym (p q : MemoPattern.t) :
  MemoPattern.eq p q = MemoPattern.eq q p.
Proof.
  unfold MemoPattern.eq.
  rewrite (compare_attrs_sym (MemoPattern.memo_type p)),
    (compare_attrs_sym (MemoPattern.memo_format p)),
    (compare_attrs_sym (MemoPattern.memo_data p)).
  reflexivity.
Qed.

Lemma MemoPattern_eq_trans (p q r : MemoPattern.t) :
  MemoPattern.eq p q = true -> MemoPattern.eq q r = true ->
  MemoPattern.eq p r = true.
Proof.
  unfold MemoPattern.eq. rewrite !andb_true_iff.
  intros [[H1 H2] H3] [[K1 K2] K3].
  repeat split; eapply compare_attrs_trans; eauto.
Qed.

(** C7: two patterns are equal exactly when their three slots are equal
    under the rule: [None] with [None]; a string with the same string; a
    compiled pattern with one of the same source text; never a string
    with a compiled pattern, even of the same text.  Equal patterns have
    equal hashes. *)
Theorem MemoPattern_eq_iff
    (py_hash : option string * option string * option string -> Z)
    (p q : MemoPattern.t) :
  (MemoPattern.eq p q = true <->
   slot_equal (MemoPattern.memo_type p) (MemoPattern.memo_type q) /\
   slot_equal (MemoPattern.memo_format p) (MemoPattern.memo_format q) /\
   slot_equal (MemoPattern.memo_data p) (MemoPattern.memo_data q)) /\
  (MemoPattern.eq p q = true ->
   MemoPattern.hash py_hash p = MemoPattern.hash py_hash q) /\
  (forall (s : string) (w : Pattern),
     MemoPattern.compare_attrs (Some (Literal s)) (Some (Compiled w)) = false /\
     MemoPattern.compare_attrs (Some (Compiled w)) (Some (Literal s)) = false).
Proof.
  unfold MemoPattern.eq. rewrite !andb_true_iff, !compare_attrs_iff.
  split; [tauto|]. split; [|intros s w; split; reflexivity].
  rewrite <- !compare_attrs_iff. intros [[H1 H2] H3].
  unfold MemoPattern.hash, MemoPattern.hash_key.
  rewrite (compare_attrs_hash _ _ H1), (compare_attrs_hash _ _ H2),
    (compare_attrs_hash _ _ H3).
  reflexivity.
Qed.

Lemma MemoPattern_eq_iff_witness :
  let py_hash (k : option string * option string * option string) : Z :=
    match k with
    | (Some s, _, _) => Z.of_nat (String.length s)
    | _ => 0
    end in
  let w1 := MemoPattern.mk None None
              (Some (Compiled (mkPattern "^abc" (Lit "abc")))) in
  let w2 := MemoPattern.mk None None
              (Some (Compiled (mkPattern "^abc"
                                 (Cat (Lit "ab") (Chr "c"))))) in
  let l := MemoPattern.mk None None (Some (Literal "abc")) in
  MemoPattern.eq w1 w2 = true /\
  MemoPattern.hash py_hash w1 = MemoPattern.hash py_hash w2 /\
  MemoPattern.eq w1 l = false /\
  MemoPattern.eq (MemoPattern.mk None None (Some (Literal "^abc"))) w1 = false.
Proof.
  intros py_hash w1 w2 l.
  split; [reflexivity|]. split.
  - apply (proj1 (proj2 (MemoPattern_eq_iff py_hash w1 w2))). reflexivity.
  - split.
    + apply (proj2 (proj2 (proj2 (MemoPattern_eq_iff py_hash w1 l))
                      "abc" (mkPattern "^abc" (Lit "abc")))).
    + apply (proj1 (proj2 (proj2 (MemoPattern_eq_iff py_hash w1 l))
                      "^abc" (mkPattern "^abc" (Lit "abc")))).
Defined.

(** ** Insertion-ordered dictionaries *)

Section DictFacts.
Context {K V : Type} (eqb : K -> K -> bool).
Hypothesis eqb_refl : forall k, eqb k k = true.
Hypothesis eqb_sym : forall k k', eqb k k' = eqb k' k.
Hypothesis eqb_trans :
  forall a b c, eqb a b = true -> eqb b c = true -> eqb a c = true.

Lemma dict_lookup_set_eq (k : K) (v : V) (d : list (K * V)) :
  dict_lookup eqb k (dict_set eqb k v d) = Some v.
Proof.
  induction d as [|[k' v'] d IH]; simpl.
  - rewrite eqb_refl. reflexivity.
  - destruct (eqb k' k) eqn:E; simpl; rewrite E; [reflexivity | exact IH].
Qed.

Lemma dict_lookup_set_ne (k k' : K) (v : V) (d : list (K * V)) :
  eqb k k' = false ->
  dict_lookup eqb k' (dict_set eqb k v d) = dict_lookup eqb k' d.
Proof.
  intros Hne. induction d as [|[x vx] d IH]; simpl.
  - rewrite Hne. reflexivity.
  - destruct (eqb x k) eqn:E; simpl; [|rewrite IH; reflexivity].
    destruct (eqb x k') eqn:E'; [|reflexivity].
    rewrite eqb_sym in E. rewrite (eqb_trans _ _ _ E E') in Hne.
    discriminate.
Qed.
End DictFacts.

(** ** InteractionPattern and InteractionGraph *)

Lemma new_Ok (mp : MemoPattern.t) (ty : InteractionType)
    (vr : option (list MemoPattern.t)) (n : bool) (ip : InteractionPattern.t) :
  InteractionPattern.new mp ty vr n = Ok ip ->
  ip = InteractionPattern.mk mp ty vr n.
Proof.
  unfold InteractionPattern.new.
  destruct (InteractionPattern.post_init _); simpl; congruence.
Qed.

(** C6: constructing an interaction pattern, directly or through
    [add_pattern], raises [ValueError] for a request whose valid
    responses are absent or empty and for a response whose valid
    responses are not empty; every other combination is constructed, and
    registered, without error. *)
Theorem construction_checks_invariant (g : InteractionGraph.t)
    (pattern_id : string) (mp : MemoPattern.t) (ty : InteractionType)
    (vr : option (list MemoPattern.t)) (n : bool) :
  (violates_invariant ty vr ->
   InteractionPattern.new mp ty vr n = Raise ValueError /\
   InteractionGraph.add_pattern g pattern_id mp ty vr n = Raise ValueError) /\
  (~ violates_invariant ty vr ->
   InteractionPattern.new mp ty vr n = Ok (InteractionPattern.mk mp ty vr n) /\
   exists g', InteractionGraph.add_pattern g pattern_id mp ty vr n = Ok g').
Proof.
  unfold violates_invariant, InteractionGraph.add_pattern. split.
  - intros [[-> [-> | ->]] | [-> (x & l & ->)]]; split; reflexivity.
  - intros H.
    destruct ty, vr as [[|x l]|]; simpl;
      try (split; [reflexivity | eauto]); exfalso; apply H; eauto 6.
Qed.

Lemma construction_checks_invariant_witness :
  let any := MemoPattern.mk None None None in
  let reply := MemoPattern.mk (Some (Literal "reply")) None None in
  InteractionPattern.new any REQUEST (Some []) false = Raise ValueError /\
  InteractionGraph.add_pattern InteractionGraph.init "ask" any REQUEST None
                               false = Raise ValueError /\
  InteractionGraph.add_pattern InteractionGraph.init "answer" reply RESPONSE
                               (Some [any]) false = Raise ValueError /\
  InteractionPattern.new any REQUEST (Some [reply]) true
    = Ok (InteractionPattern.mk any REQUEST (Some [reply]) true) /\
  exists g', InteractionGraph.add_pattern InteractionGraph.init "note" any
                                          STANDALONE None false = Ok g'.
Proof.
  intros any reply.
  split.
  { apply (proj1 (construction_checks_invariant
                    InteractionGraph.init "ask" any REQUEST (Some []) false)).
    left. split; [reflexivity | right; reflexivity]. }
  split.
  { apply (proj1 (construction_checks_invariant
                    InteractionGraph.init "ask" any REQUEST None false)).
    left. split; [reflexivity | left; reflexivity]. }
  split.
  { apply (proj1 (construction_checks_invariant
                    InteractionGraph.init "answer" reply RESPONSE
                    (Some [any]) false)).
    right. split; [reflexivity | eauto]. }
  split.
  { apply (proj2 (construction_checks_invariant
                    InteractionGraph.init "ask" any REQUEST (Some [reply])
                    true)).
    intros [[_ [H|H]] | [H _]]; discriminate. }
  apply (proj2 (construction_checks_invariant
                  InteractionGraph.init "note" any STANDALONE None false)).
  intros [[H _] | [H _]]; discriminate.
Defined.

(** C9: after a pattern id is registered with one memo pattern and then
    registered again with a different one, the forward map gives the
    second pattern for the id, and the reverse lookup of the first
    pattern still gives the id. *)
Theorem reregistration_leaves_stale_reverse_entry
    (g g1 g2 : InteractionGraph.t) (pattern_id : string)
    (p1 p2 : MemoPattern.t) (ty1 ty2 : InteractionType)
    (vr1 vr2 : option (list MemoPattern.t)) (n1 n2 : bool) :
  InteractionGraph.add_pattern g pattern_id p1 ty1 vr1 n1 = Ok g1 ->
  InteractionGraph.add_pattern g1 pattern_id p2 ty2 vr2 n2 = Ok g2 ->
  MemoPattern.eq p1 p2 = false ->
  dict_lookup String.eqb pattern_id (InteractionGraph.patterns g2)
    = Some (InteractionPattern.mk p2 ty2 vr2 n2) /\
  InteractionGraph.get_pattern_id_by_memo_pattern g2 p2 = Some pattern_id /\
  InteractionGraph.get_pattern_id_by_memo_pattern g2 p1 = Some pattern_id.
Proof.
  unfold InteractionGraph.add_pattern,
    InteractionGraph.get_pattern_id_by_memo_pattern.
  destruct (InteractionPattern.new p1 ty1 vr1 n1) as [ip1|e] eqn:E1; simpl;
    [|discriminate].
  intros [= <-]. simpl.
  destruct (InteractionPattern.new p2 ty2 vr2 n2) as [ip2|e] eqn:E2; simpl;
    [|discriminate].
  intros [= <-] Hne. simpl. apply new_Ok in E2. subst ip2.
  split; [|split].
  - apply dict_lookup_set_eq, String.eqb_refl.
  - apply dict_lookup_set_eq, MemoPattern_eq_refl.
  - rewrite dict_lookup_set_ne.
    + apply dict_lookup_set_eq, MemoPattern_eq_refl.
    + apply MemoPattern_eq_sym.
    + apply MemoPattern_eq_trans.
    + rewrite MemoPattern_eq_sym. exact Hne.
Qed.

Lemma reregistration_leaves_stale_reverse_entry_witness :
  let p1 := MemoPattern.mk (Some (Literal "proposal")) None None in
  let p2 := MemoPattern.mk (Some (Literal "offer")) None None in
  let ip2 := InteractionPattern.mk p2 STANDALONE None false in
  let g1 := InteractionGraph.mk
              [("P", InteractionPattern.mk p1 STANDALONE None false)]
              [(p1, "P")] in
  let g2 := InteractionGraph.mk [("P", ip2)] [(p1, "P"); (p2, "P")] in
  InteractionGraph.add_pattern InteractionGraph.init "P" p1 STANDALONE None
                               false = Ok g1 /\
  InteractionGraph.add_pattern g1 "P" p2 STANDALONE None false = Ok g2 /\
  dict_lookup String.eqb "P" (InteractionGraph.patterns g2) = Some ip2 /\
  InteractionGraph.get_pattern_id_by_memo_pattern g2 p2 = Some "P" /\
  InteractionGraph.get_pattern_id_by_memo_pattern g2 p1 = Some "P".
Proof.
  intros p1 p2 ip2 g1 g2.
  split; [reflexivity|]. split; [reflexivity|].
  apply (reregistration_leaves_stale_reverse_entry
           InteractionGraph.init g1 g2 "P" p1 p2 STANDALONE STANDALONE
           None None false false); reflexivity.
Defined.

(** * Further properties of the module *)

(** ** Descriptors *)

(** X1: every descriptor [from_transaction] returns is chunked exactly
    when it has a chunk index, carries the transaction's [memo_type] as
    group id, and is flagged standardized exactly when the format string
    passes the detection; a standardized one has a chunk index exactly
    when it has a total, a legacy one has neither a total nor an
    encryption marker. *)
Theorem from_transaction_descriptor (tx : pydict) (s : MemoStructure.t) :
  MemoStructure.from_transaction tx = Ok s ->
  (MemoStructure.is_chunked s = true <-> MemoStructure.chunk_index s <> None) /\
  MemoStructure.is_complete s = negb (MemoStructure.is_chunked s) /\
  MemoStructure.group_id s = dict_get tx "memo_type" PNone /\
  MemoStructure.is_standardized_memo_format (dict_get tx "memo_format" PNone)
    = Ok (MemoStructure.is_standardized_format s) /\
  (MemoStructure.is_standardized_format s = true ->
   (MemoStructure.chunk_index s <> None <->
    MemoStructure.total_chunks s <> None)) /\
  (MemoStructure.is_standardized_format s = false ->
   MemoStructure.total_chunks s = None /\
   MemoStructure.encryption_type s = None).
Proof.
  unfold MemoStructure.from_transaction.
  destruct (MemoStructure.is_standardized_memo_format _) as [[|]|e] eqn:Hstd;
    simpl; [| |discriminate].
  - destruct (dict_get tx "memo_format" PNone) as [|b|f|t]; try discriminate.
    unfold MemoStructure.parse_standardized_format.
    destruct (split "." f) as [|e [|c [|k [|? ?]]]]; try discriminate.
    destruct (negb (String.eqb k (value NONE)));
      [destruct (MemoStructure.chunking_groups k) as [[g1 g2]|]|];
      simpl; intros [= <-]; simpl;
      repeat split; intros; try discriminate; congruence.
  - destruct (dict_get tx "memo_data" (PStr "")) as [|b|data|t];
      try discriminate.
    intros [= <-].
    destruct (MemoStructure.legacy_chunk_group data); simpl;
      repeat split; intros; try discriminate; congruence.
Qed.

Lemma from_transaction_descriptor_witness :
  let s := MemoStructure.mk true (Some 2) (Some 4) (PStr "G1")
                            (Some BROTLI) None true in
  (MemoStructure.is_chunked s = true <-> MemoStructure.chunk_index s <> None) /\
  MemoStructure.is_complete s = negb (MemoStructure.is_chunked s) /\
  MemoStructure.group_id s
    = dict_get (standard_tx "G1" "-.b.c2/4" "p" 1) "memo_type" PNone /\
  MemoStructure.is_standardized_memo_format
    (dict_get (standard_tx "G1" "-.b.c2/4" "p" 1) "memo_format" PNone)
    = Ok (MemoStructure.is_standardized_format s) /\
  (MemoStructure.is_standardized_format s = true ->
   (MemoStructure.chunk_index s <> None <->
    MemoStructure.total_chunks s <> None)) /\
  (MemoStructure.is_standardized_format s = false ->
   MemoStructure.total_chunks s = None /\
   MemoStructure.encryption_type s = None).
Proof.
  intros s.
  apply (from_transaction_descriptor (standard_tx "G1" "-.b.c2/4" "p" 1) s).
  vm_compute. reflexivity.
Defined.

(** ** Decoding a format string *)








Lemma is_digit_value (c : ascii) :
  is_digit c = true -> 0 <= Z.of_N (N_of_ascii c) - 48 <= 9.
Proof.
  unfold is_digit. intros [H1 H2]%andb_true_iff.
  apply N.leb_le in H1, H2. lia.
Qed.

Lemma int_acc_nonneg (acc : Z) (s : string) :
  0 <= acc -> all_digits s = true -> 0 <= int_acc acc s.
Proof.
  revert acc. induction s as [|c s IH]; simpl; intros acc Hacc; [auto|].
  intros [Hc Hs]%andb_true_iff. apply IH; [|assumption].
  pose proof (is_digit_value c Hc). lia.
Qed.

(** X3: the chunk index and the total of a descriptor are never
    negative. *)
Theorem chunk_numbers_nonnegative (tx : pydict) (s : MemoStructure.t) :
  MemoStructure.from_transaction tx = Ok s ->
  (forall i, MemoStructure.chunk_index s = Some i -> 0 <= i) /\
  (forall n, MemoStructure.total_chunks s = Some n -> 0 <= n).
Proof.
  unfold MemoStructure.from_transaction.
  destruct (MemoStructure.is_standardized_memo_format _) as [[|]|e];
    simpl; [| |discriminate].
  - destruct (dict_get tx "memo_format" PNone) as [|b|f|t]; try discriminate.
    unfold MemoStructure.parse_standardized_format.
    destruct (split "." f) as [|e [|c [|k [|? ?]]]]; try discriminate.
    destruct (negb (String.eqb k (value NONE)));
      [destruct (MemoStructure.chunking_groups k) as [[g1 g2]|] eqn:G|];
      simpl; intros [= <-]; simpl; split; intros ? [= <-].
    all: apply chunking_groups_spec in G as (rest & _ & [_ H1] & [_ H2] & _).
    all: apply int_acc_nonneg; [lia | assumption].
  - destruct (dict_get tx "memo_data" (PStr "")) as [|b|data|t];
      try discriminate.
    intros [= <-]. simpl. split; [|discriminate].
    destruct (MemoStructure.legacy_chunk_group data) as [g|] eqn:G; simpl;
      intros i [= <-].
    apply legacy_chunk_group_spec in G as (rest & _ & _ & Hd).
    apply int_acc_nonneg; [lia | assumption].
Qed.

Lemma chunk_numbers_nonnegative_witness :
  (forall i, Some 2 = Some i -> 0 <= i) /\
  (forall n, @None Z = Some n -> 0 <= n).
Proof.
  exact (chunk_numbers_nonnegative (legacy_tx "G1" "chunk_2__x" 1)
           (legacy_structure "G1" 2 None) eq_refl).
Defined.

(** ** Routing *)



Lemma prefix_app (p x : string) : String.prefix p (p +:+ x) = true.
Proof.
  induction p as [|a p IH]; [destruct x; reflexivity|].
  rewrite str_app_cons. simpl.
  destruct (ascii_dec a a); [assumption | contradiction].
Qed.

Lemma contains_prefix (needle s : string) :
  String.prefix needle s = true -> contains needle s = true.
Proof. intros H. destruct s; cbn [contains]; rewrite H; reflexivity. Qed.

(** X5: under the legacy grammar, with the memo flag set, the
    classification is [NEEDS_LEGACY_GROUPING] exactly when the content
    holds ["chunk_"] somewhere, and [DIRECT_MATCH] otherwise.  Every
    fragment whose descriptor is chunked is therefore sent to legacy
    grouping; a content that only mentions ["chunk_"] is sent there too,
    with a descriptor that is not chunked. *)
Theorem match_legacy_grammar (tx : pydict) (s : MemoStructure.t) :
  truthy (dict_get tx "has_memos" PNone) = true ->
  MemoStructure.from_transaction tx = Ok s ->
  MemoStructure.is_standardized_format s = false ->
  exists data,
    dict_get tx "memo_data" (PStr "") = PStr data /\
    StructuralPattern.match_ tx
      = Ok (if contains "chunk_" data
            then StructuralPattern.NEEDS_LEGACY_GROUPING
            else StructuralPattern.DIRECT_MATCH) /\
    (MemoStructure.is_chunked s = true -> contains "chunk_" data = true).
Proof.
  intros Hflag Hs Hstd.
  destruct (from_transaction_legacy tx s Hs Hstd)
    as (data & Hd & Hc & _ & _).
  exists data. split; [assumption|]. split.
  - unfold StructuralPattern.match_. rewrite Hflag, Hs. simpl.
    rewrite Hstd, Hd. simpl.
    destruct (contains "chunk_" data); reflexivity.
  - rewrite Hc. intros H. apply bool_decide_eq_true in H.
    destruct (MemoStructure.legacy_chunk_group data) as [g|] eqn:G;
      [|contradiction].
    apply legacy_chunk_group_spec in G as (rest & -> & _).
    apply contains_prefix, prefix_app.
Qed.

Lemma match_legacy_grammar_witness :
  let tx : pydict := {[ "has_memos" := PBool true;
                        "memo_type" := PStr "G1";
                        "memo_data" := PStr "see chunk_ later" ]} in
  let s := MemoStructure.mk false None None (PStr "G1") None None false in
  MemoStructure.from_transaction tx = Ok s /\
  StructuralPattern.match_ tx = Ok StructuralPattern.NEEDS_LEGACY_GROUPING.
Proof.
  intros tx s. split; [vm_compute; reflexivity|].
  destruct (match_legacy_grammar tx s) as (data & Hd & Hm & _);
    [vm_compute; reflexivity ..|].
  vm_compute in Hd. injection Hd as <-. exact Hm.
Defined.

(** ** Groups *)

Lemma list_remove_split (x : pydict) (l l' : list pydict) :
  MemoGroup.list_remove x l = Ok l' ->
  exists l1 l2, l = l1 ++ x :: l2 /\ l' = l1 ++ l2.
Proof.
  revert l'. induction l as [|a l IH]; intros l' H; simpl in H;
    [discriminate|].
  case_bool_decide as E.
  - injection H as <-. subst a. exists [], l. split; reflexivity.
  - destruct (MemoGroup.list_remove x l) as [l''|e]; simpl in H;
      [|discriminate].
    injection H as <-. destruct (IH l'' eq_refl) as (l1 & l2 & -> & ->).
    exists (a :: l1), l2. split; reflexivity.
Qed.

Lemma find_existing_found (l : list pydict) (idx : option Z) (x : pydict) :
  MemoGroup.find_existing l idx = Ok (Some x) ->
  x ∈ l /\ exists s, MemoStructure.from_transaction x = Ok s /\
                     MemoStructure.chunk_index s = idx.
Proof.
  induction l as [|m l IH]; simpl; [discriminate|].
  destruct (MemoStructure.from_transaction m) as [s|e] eqn:E; simpl;
    [|discriminate].
  case_bool_decide as Hi.
  - intros [= <-]. split; [left | eauto].
  - intros H. apply IH in H as [H1 H2].
    split; [right; assumption | assumption].
Qed.

Lemma find_existing_none (l : list pydict) (idx : option Z) :
  MemoGroup.find_existing l idx = Ok None -> index_free l idx.
Proof.
  induction l as [|m l IH]; simpl; intros H x Hx.
  - apply elem_of_nil in Hx. contradiction.
  - destruct (MemoStructure.from_transaction m) as [s|e] eqn:E; simpl in H;
      [|discriminate].
    case_bool_decide as Hi; [discriminate|].
    apply elem_of_cons in Hx as [->|Hx]; [eauto | apply IH; assumption].
Qed.

Lemma empty_memo_not_chunked (e : pydict) (s : MemoStructure.t) :
  MemoGroup.dict_truthy e = false ->
  MemoStructure.from_transaction e = Ok s ->
  MemoStructure.chunk_index s = None.
Proof.
  unfold MemoGroup.dict_truthy. intros H.
  apply negb_false_iff, bool_decide_eq_true in H. subst e.
  vm_compute. intros [= <-]. reflexivity.
Qed.

(** The paths of [add_memo] that change the group, for a transaction that
    passed the first two tests. *)
Lemma add_memo_outcomes (g g' : MemoGroup.t) (tx : pydict) (b : bool) :
  MemoGroup.add_memo g tx = Ok (b, g') ->
  (b = false /\ g' = g) \/
  (b = true /\
   settled_member (MemoGroup.group_id g) tx /\
   exists s, MemoStructure.from_transaction tx = Ok s /\
     ((g' = MemoGroup.append g tx /\
       (MemoStructure.is_standardized_format s = true \/
        MemoStructure.chunk_index s = None \/
        index_free (MemoGroup.memos g) (MemoStructure.chunk_index s))) \/
      (MemoStructure.is_standardized_format s = false /\
       exists existing se l1 l2,
         MemoGroup.memos g = l1 ++ existing :: l2 /\
         g' = MemoGroup.set_memos g (l1 ++ l2 ++ [tx]) /\
         MemoStructure.from_transaction existing = Ok se /\
         MemoStructure.chunk_index se = MemoStructure.chunk_index s /\
         MemoStructure.chunk_index s <> None))).
Proof.
  unfold MemoGroup.add_memo.
  destruct (bool_decide (_ = PStr "tesSUCCESS")) eqn:E1; simpl;
    [|intros [= <- <-]; left; auto].
  apply bool_decide_eq_true in E1.
  destruct (bool_decide (_ = MemoGroup.group_id g)) eqn:E2; simpl;
    [|intros [= <- <-]; left; auto].
  apply bool_decide_eq_true in E2.
  destruct (MemoStructure.from_transaction tx) as [s|e] eqn:Hs; simpl;
    [|discriminate].
  destruct (MemoStructure.is_standardized_format s) eqn:Hstd.
  { destruct (MemoGroup._is_structure_consistent g s) as [[|]|e]; simpl;
      [| |discriminate]; intros [= <- <-]; [right | left; auto].
    repeat split; auto. exists s. split; auto. }
  destruct (MemoStructure.chunk_index s) as [i|] eqn:Hi.
  2:{ intros [= <- <-]. right. repeat split; auto. exists s. split; auto. }
  destruct (MemoGroup.find_existing _ _) as [[existing|]|e] eqn:F; simpl;
    [| |discriminate].
  2:{ intros [= <- <-]. right. repeat split; auto. exists s. split; auto.
      left. split; auto. right. right. rewrite Hi.
      apply find_existing_none. exact F. }
  apply find_existing_found in F as (Hin & se & Hse & Hsei).
  destruct (MemoGroup.dict_truthy existing) eqn:T.
  2:{ rewrite (empty_memo_not_chunked _ _ T Hse) in Hsei. discriminate. }
  destruct (py_lt _ _) as [[|]|e]; simpl; [| |discriminate].
  2:{ intros [= <- <-]. left. auto. }
  destruct (MemoGroup.list_remove existing _) as [l|e] eqn:R; simpl;
    [|discriminate].
  intros [= <- <-]. right. repeat split; auto. exists s. split; auto.
  right. split; [assumption|].
  apply list_remove_split in R as (l1 & l2 & Hl & ->).
  exists existing, se, l1, l2. rewrite <- app_assoc, Hi.
  repeat split; auto.
Qed.

(** X6: [add_memo] keeps the group sound: when every memo of the group
    is settled and carries the group's id, the same holds after the call,
    and a call that returns [True] has put the transaction, itself settled
    and of the group, in the list. *)
Theorem add_memo_keeps_members (g g' : MemoGroup.t) (tx : pydict) (b : bool) :
  Forall (settled_member (MemoGroup.group_id g)) (MemoGroup.memos g) ->
  MemoGroup.add_memo g tx = Ok (b, g') ->
  Forall (settled_member (MemoGroup.group_id g')) (MemoGroup.memos g') /\
  (b = true ->
   tx ∈ MemoGroup.memos g' /\ settled_member (MemoGroup.group_id g') tx).
Proof.
  intros Hall H.
  apply add_memo_outcomes in H
    as [[-> ->] | (-> & Htx & s & Hs & [[-> _] | (_ & H)])].
  - split; [assumption | discriminate].
  - simpl. split.
    + apply Forall_app. split; [assumption|]. constructor; [assumption|].
      constructor.
    + intros _. split; [|assumption]. apply elem_of_app. right. left.
  - destruct H as (existing & se & l1 & l2 & Hl & -> & _). simpl.
    rewrite Hl in Hall.
    apply Forall_app in Hall as [H1 H2]. apply Forall_cons in H2 as [_ H2].
    split.
    + rewrite !Forall_app. repeat split; auto.
    + intros _. split; [|assumption].
      rewrite !elem_of_app. right. right. left.
Qed.

Lemma add_memo_keeps_members_witness :
  let g := MemoGroup.mk (PStr "G1") [legacy_tx "G1" "chunk_1__a" 3] None in
  let tx := legacy_tx "G1" "chunk_2__b" 4 in
  Forall (settled_member (PStr "G1")) (MemoGroup.memos g ++ [tx]) /\
  (true = true ->
   tx ∈ MemoGroup.memos g ++ [tx] /\ settled_member (PStr "G1") tx).
Proof.
  intros g tx.
  apply (add_memo_keeps_members g (MemoGroup.append g tx) tx true).
  - repeat constructor.
  - vm_compute. reflexivity.
Defined.

Lemma index_of_derived (m : pydict) (s : MemoStructure.t) :
  MemoStructure.from_transaction m = Ok s ->
  index_of m = MemoStructure.chunk_index s.
Proof. intros H. unfold index_of. rewrite H. reflexivity. Qed.

Lemma index_free_omap (l : list pydict) (i : Z) :
  index_free l (Some i) -> i ∉ omap index_of l.
Proof.
  intros Hfree Hin. apply list_elem_of_omap in Hin as (m & Hm & Hi).
  destruct (Hfree m Hm) as (s & Hs & Hne).
  rewrite (index_of_derived m s Hs) in Hi. contradiction.
Qed.

(** X7: a group of legacy fragments never holds two fragments with the
    same chunk index: if no two memos of the group share a chunk index,
    none do after [add_memo] of a legacy transaction, whether it was
    appended, put in the place of another, or refused. *)
Theorem add_memo_keeps_indices_unique
    (g g' : MemoGroup.t) (tx : pydict) (s : MemoStructure.t) (b : bool) :
  unique_indices (MemoGroup.memos g) ->
  MemoStructure.from_transaction tx = Ok s ->
  MemoStructure.is_standardized_format s = false ->
  MemoGroup.add_memo g tx = Ok (b, g') ->
  unique_indices (MemoGroup.memos g').
Proof.
  unfold unique_indices. intros Hu Hs Hstd H.
  apply add_memo_outcomes in H
    as [[-> ->] | (-> & Htx & s' & Hs' & H)]; [assumption|].
  rewrite Hs in Hs'. injection Hs' as <-.
  destruct H as [[-> [H | [H | H]]] | (_ & H)]; simpl.
  - congruence.
  - rewrite omap_app. simpl. rewrite (index_of_derived tx s Hs), H.
    simpl. rewrite app_nil_r. assumption.
  - rewrite omap_app. simpl. rewrite (index_of_derived tx s Hs).
    destruct (MemoStructure.chunk_index s) as [i|]; simpl;
      [|rewrite app_nil_r; assumption].
    apply NoDup_app. split; [assumption|]. split; [|apply NoDup_singleton].
    intros x Hx Hx'. apply list_elem_of_singleton in Hx'. subst x.
    revert Hx. apply index_free_omap. assumption.
  - destruct H as (existing & se & l1 & l2 & Hl & -> & Hse & Hsei & Hne).
    simpl. rewrite Hl in Hu.
    rewrite !omap_app in *. simpl in *.
    rewrite (index_of_derived tx s Hs).
    rewrite (index_of_derived existing se Hse), Hsei in Hu.
    destruct (MemoStructure.chunk_index s) as [i|]; [|contradiction].
    simpl in *.
    assert (HP : omap index_of l1 ++ omap index_of l2 ++ [i]
                 ≡ₚ omap index_of l1 ++ i :: omap index_of l2).
    { apply Permutation_app_head. symmetry. apply Permutation_cons_append. }
    rewrite HP. exact Hu.
Qed.

Lemma add_memo_keeps_indices_unique_witness :
  let late := legacy_tx "G1" "chunk_2__late" 9 in
  let early := legacy_tx "G1" "chunk_2__early" 4 in
  let first := legacy_tx "G1" "chunk_1__a" 3 in
  unique_indices [first; early].
Proof.
  intros late early first.
  apply (add_memo_keeps_indices_unique
           (MemoGroup.mk (PStr "G1") [first; late] None)
           (MemoGroup.mk (PStr "G1") [first; early] None)
           early (legacy_structure "G1" 2 None) true).
  - unfold unique_indices. vm_compute.
    apply NoDup_cons. split; [|apply NoDup_singleton].
    intros H. apply list_elem_of_singleton in H. discriminate.
  - vm_compute. reflexivity.
  - reflexivity.
  - vm_compute. reflexivity.
Defined.

(** X8: a settled current-grammar transaction of the group whose
    encryption marker, compression marker and total agree with the
    group's structure is always appended: the chunk index is not looked
    at, so handing the same transaction in again puts a second copy in
    the list. *)
Theorem add_memo_appends_current_grammar
    (g : MemoGroup.t) (tx : pydict) (s st : MemoStructure.t) :
  settled_member (MemoGroup.group_id g) tx ->
  MemoStructure.from_transaction tx = Ok s ->
  MemoStructure.is_standardized_format s = true ->
  MemoGroup.structure g = Some st ->
  MemoStructure.encryption_type s = MemoStructure.encryption_type st ->
  MemoStructure.compression_type s = MemoStructure.compression_type st ->
  MemoStructure.total_chunks s = MemoStructure.total_chunks st ->
  MemoGroup.add_memo g tx = Ok (true, MemoGroup.append g tx) /\
  MemoGroup.add_memo (MemoGroup.append g tx) tx
    = Ok (true, MemoGroup.append (MemoGroup.append g tx) tx).
Proof.
  intros [Hr Hg] Hs Hstd Hst He Hc Ht.
  assert (forall h, MemoGroup.group_id h = MemoGroup.group_id g ->
                    MemoGroup.structure h = Some st ->
                    MemoGroup.add_memo h tx = Ok (true, MemoGroup.append h tx))
    as Hadd.
  { intros h Hhg Hhs. unfold MemoGroup.add_memo.
    rewrite Hr, Hg, Hhg, Hs. simpl.
    rewrite !bool_decide_eq_true_2 by reflexivity. simpl. rewrite Hstd.
    unfold MemoGroup._is_structure_consistent. rewrite Hhs. simpl.
    rewrite !bool_decide_eq_true_2 by assumption. reflexivity. }
  split; apply Hadd; auto.
Qed.

Lemma add_memo_appends_current_grammar_witness :
  let st := MemoStructure.mk true (Some 1) (Some 3) (PStr "G1")
                             None None true in
  let tx := standard_tx "G1" "-.-.c1/3" "p" 1 in
  let g := MemoGroup.mk (PStr "G1") [tx] (Some st) in
  MemoGroup.add_memo g tx = Ok (true, MemoGroup.append g tx) /\
  MemoGroup.add_memo (MemoGroup.append g tx) tx
    = Ok (true, MemoGroup.append (MemoGroup.append g tx) tx).
Proof.
  intros st tx g.
  apply (add_memo_appends_current_grammar g tx st st);
    first [reflexivity | split; reflexivity | vm_compute; reflexivity].
Defined.

(** ** The chunk indices of a group *)

#[local] Set Warnings "-clear-no-such-hyp".

Lemma indices_of_memo_derived (tx : pydict) (s : MemoStructure.t) :
  MemoStructure.from_transaction tx = Ok s ->
  MemoGroup.indices_of_memo tx = Ok (index_set s).
Proof.
  intros H. unfold MemoGroup.indices_of_memo, index_set. rewrite H. simpl.
  destruct (MemoStructure.chunk_index s); reflexivity.
Qed.

Lemma indices_of_memos_app (l1 l2 : list pydict) (S1 S2 : gset Z) :
  MemoGroup.indices_of_memos l1 = Ok S1 ->
  MemoGroup.indices_of_memos l2 = Ok S2 ->
  MemoGroup.indices_of_memos (l1 ++ l2) = Ok (S1 ∪ S2).
Proof.
  revert S1. induction l1 as [|m l1 IH]; simpl; intros S1 H1 H2.
  - injection H1 as <-. rewrite H2. f_equal. set_solver.
  - destruct (MemoGroup.indices_of_memo m) as [here|e]; simpl in *;
      [|discriminate].
    destruct (MemoGroup.indices_of_memos l1) as [more|e]; simpl in *;
      [|discriminate].
    injection H1 as <-. rewrite (IH more eq_refl H2). simpl.
    f_equal. set_solver.
Qed.

Lemma indices_of_memos_app_inv (l1 l2 : list pydict) (S : gset Z) :
  MemoGroup.indices_of_memos (l1 ++ l2) = Ok S ->
  exists S1 S2,
    MemoGroup.indices_of_memos l1 = Ok S1 /\
    MemoGroup.indices_of_memos l2 = Ok S2 /\ S = S1 ∪ S2.
Proof.
  revert S. induction l1 as [|m l1 IH]; simpl; intros S H.
  - exists ∅, S. repeat split; [assumption | set_solver].
  - destruct (MemoGroup.indices_of_memo m) as [here|e]; simpl in *;
      [|discriminate].
    destruct (MemoGroup.indices_of_memos (l1 ++ l2)) as [more|e] eqn:E;
      simpl in *; [|discriminate].
    injection H as <-.
    destruct (IH more eq_refl) as (S1 & S2 & -> & -> & ->). simpl.
    exists (here ∪ S1), S2. repeat split. set_solver.
Qed.

(** X9: [chunk_indices] follows [add_memo]: a refused transaction leaves
    the set as it was, an accepted one adds its own chunk index, if it
    has one, and nothing else; putting a fragment in the place of another
    leaves the set unchanged. *)
Theorem chunk_indices_after_add_memo
    (g g' : MemoGroup.t) (tx : pydict) (b : bool) (S : gset Z) :
  MemoGroup.chunk_indices g = Ok S ->
  MemoGroup.add_memo g tx = Ok (b, g') ->
  (b = false -> MemoGroup.chunk_indices g' = Ok S) /\
  (b = true ->
   exists s, MemoStructure.from_transaction tx = Ok s /\
             MemoGroup.chunk_indices g' = Ok (S ∪ index_set s)).
Proof.
  unfold MemoGroup.chunk_indices. intros HS H.
  apply add_memo_outcomes in H
    as [[-> ->] | (-> & Htx & s & Hs & [[-> _] | (_ & H)])].
  - split; [auto | discriminate].
  - split; [discriminate | intros _]. exists s. split; [assumption|].
    simpl. apply indices_of_memos_app; [assumption|].
    simpl. rewrite (indices_of_memo_derived tx s Hs). simpl.
    f_equal. set_solver.
  - split; [discriminate | intros _]. exists s. split; [assumption|].
    destruct H as (existing & se & l1 & l2 & Hl & -> & Hse & Hsei & Hne).
    simpl. rewrite Hl in HS.
    apply indices_of_memos_app_inv in HS as (S1 & S2' & H1 & H2 & ->).
    simpl in H2. rewrite (indices_of_memo_derived existing se Hse) in H2.
    simpl in H2.
    destruct (MemoGroup.indices_of_memos l2) as [S2|e] eqn:E2; simpl in H2;
      [|discriminate].
    injection H2 as <-.
    assert (index_set se = index_set s) as Hset
      by (unfold index_set; rewrite Hsei; reflexivity).
    assert (MemoGroup.indices_of_memos [tx] = Ok (index_set s)) as Htx1.
    { simpl. rewrite (indices_of_memo_derived tx s Hs). simpl.
      f_equal. set_solver. }
    rewrite (indices_of_memos_app l1 (l2 ++ [tx]) S1 (S2 ∪ index_set s) H1
               (indices_of_memos_app l2 [tx] S2 (index_set s) E2 Htx1)).
    f_equal. rewrite Hset. set_solver.
Qed.

Lemma chunk_indices_after_add_memo_witness :
  let g := MemoGroup.mk (PStr "G1") [legacy_tx "G1" "chunk_2__b" 5] None in
  let tx := legacy_tx "G1" "chunk_1__a" 6 in
  MemoGroup.chunk_indices g = Ok {[ 2 ]} /\
  (true = true ->
   exists s, MemoStructure.from_transaction tx = Ok s /\
             MemoGroup.chunk_indices (MemoGroup.append g tx)
             = Ok ({[ 2 ]} ∪ index_set s)).
Proof.
  intros g tx.
  assert (MemoGroup.chunk_indices g = Ok {[ 2 ]}) as HS.
  { vm_compute. reflexivity. }
  split; [exact HS|].
  apply (chunk_indices_after_add_memo g (MemoGroup.append g tx) tx true
           {[ 2 ]} HS).
  vm_compute. reflexivity.
Defined.

(** ** Matching on string fields *)

Lemma slot_passes_total (slot : option matcher) (v : pyval) :
  none_or_str v -> exists b, MemoPattern.slot_passes slot v = Ok b.
Proof.
  intros [-> | [s ->]]; destruct slot as [[u|p]|]; simpl; eauto;
    repeat match goal with
           | |- context [if ?c then _ else _] => destruct c
           end; eauto.
Qed.

Lemma matches_returns (p : MemoPattern.t) (tx : pydict) :
  string_fields tx -> exists b, MemoPattern.matches p tx = Ok b.
Proof.
  intros (H1 & H2 & H3). unfold MemoPattern.matches.
  destruct (slot_passes_total (MemoPattern.memo_type p) _ H1) as [[|] ->];
    simpl; [|eauto].
  destruct (slot_passes_total (MemoPattern.memo_format p) _ H2) as [[|] ->];
    simpl; [|eauto].
  destruct (slot_passes_total (MemoPattern.memo_data p) _ H3) as [[|] ->];
    simpl; eauto.
Qed.

(** X10: on a transaction whose three memo fields are strings, null or
    missing, [matches] returns a Boolean for every pattern: it raises
    nothing.  It raises [TypeError] when a compiled pattern meets a field
    that is true without being a string. *)
Theorem matches_total_on_string_fields (p : MemoPattern.t) (tx : pydict) :
  (string_fields tx -> exists b, MemoPattern.matches p tx = Ok b) /\
  (forall w v,
     MemoPattern.memo_type p = Some (Compiled w) ->
     dict_get tx "memo_type" PNone = v ->
     truthy v = true -> (forall u, v <> PStr u) ->
     MemoPattern.matches p tx = Raise TypeError).
Proof.
  split; [apply matches_returns|].
  intros w v Hp Hv Ht Hn. unfold MemoPattern.matches.
  rewrite Hp, Hv. simpl. rewrite Ht. simpl.
  destruct v as [| |u|]; try reflexivity. destruct (Hn u eq_refl).
Qed.

Lemma matches_total_on_string_fields_witness :
  let p := MemoPattern.mk (Some (Compiled (mkPattern "^abc" (Lit "abc"))))
                          None (Some (Literal "x")) in
  (exists b,
     MemoPattern.matches
       p {[ "memo_type" := PStr "abcd"; "memo_data" := PNone ]} = Ok b) /\
  MemoPattern.matches p {[ "memo_type" := PTime 7 ]} = Raise TypeError.
Proof.
  intros p. split.
  - apply (proj1 (matches_total_on_string_fields _ _)).
    repeat split; first [left; reflexivity | right; eexists; reflexivity].
  - apply (proj2 (matches_total_on_string_fields p _)
             (mkPattern "^abc" (Lit "abc")) (PTime 7));
      [reflexivity | reflexivity | reflexivity | discriminate].
Defined.

(** ** Lookups in the graph *)

Lemma find_matching_in_Some (items : list (string * InteractionPattern.t))
    (tx : pydict) (id : string) :
  InteractionGraph.find_matching_in items tx = Ok (Some id) <->
  exists l1 ip l2,
    items = l1 ++ (id, ip) :: l2 /\
    MemoPattern.matches (InteractionPattern.memo_pattern ip) tx = Ok true /\
    Forall (fun e => MemoPattern.matches
                       (InteractionPattern.memo_pattern e.2) tx = Ok false)
           l1.
Proof.
  induction items as [|[k ip] items IH]; simpl.
  - split; [discriminate|]. intros (l1 & ? & ? & H & _).
    destruct l1; discriminate.
  - destruct (MemoPattern.matches _ tx) as [[|]|e] eqn:M; simpl.
    + split.
      * intros [= ->]. exists [], ip, items. repeat split; auto.
      * intros ([|[k' ip'] l1] & ip0 & l2 & H & Hm & Hall);
          simpl in H; injection H as -> -> ->; [reflexivity|].
        apply Forall_cons in Hall as [Hf _]. simpl in Hf. congruence.
    + rewrite IH. split.
      * intros (l1 & ip0 & l2 & -> & Hm & Hall).
        exists ((k, ip) :: l1), ip0, l2. repeat split; auto.
      * intros ([|[k' ip'] l1] & ip0 & l2 & H & Hm & Hall);
          simpl in H; injection H as -> -> ->; [congruence|].
        apply Forall_cons in Hall as [_ Hall]. eauto 6.
    + split; [discriminate|].
      intros ([|[k' ip'] l1] & ip0 & l2 & H & Hm & Hall);
        simpl in H; injection H as -> -> ->; [congruence|].
      apply Forall_cons in Hall as [Hf _]. simpl in Hf. congruence.
Qed.

Lemma find_matching_in_None (items : list (string * InteractionPattern.t))
    (tx : pydict) :
  InteractionGraph.find_matching_in items tx = Ok None <->
  Forall (fun e => MemoPattern.matches
                     (InteractionPattern.memo_pattern e.2) tx = Ok false)
         items.
Proof.
  induction items as [|[k ip] items IH]; simpl.
  - split; [constructor | reflexivity].
  - rewrite Forall_cons. simpl.
    destruct (MemoPattern.matches _ tx) as [[|]|e]; simpl.
    + split; [discriminate | intros [[=] _]].
    + rewrite IH. tauto.
    + split; [discriminate | intros [[=] _]].
Qed.

(** X11: [find_matching_pattern] returns the id of the first entry, in
    registration order, whose pattern matches, every entry before it
    having answered [False]; it returns [None] exactly when every
    registered pattern answers [False]. *)
Theorem find_matching_pattern_first (g : InteractionGraph.t) (tx : pydict) :
  (forall id,
     InteractionGraph.find_matching_pattern g tx = Ok (Some id) <->
     exists l1 ip l2,
       InteractionGraph.patterns g = l1 ++ (id, ip) :: l2 /\
       MemoPattern.matches (InteractionPattern.memo_pattern ip) tx
         = Ok true /\
       Forall (fun e => MemoPattern.matches
                          (InteractionPattern.memo_pattern e.2) tx
                        = Ok false) l1) /\
  (InteractionGraph.find_matching_pattern g tx = Ok None <->
   Forall (fun e => MemoPattern.matches
                      (InteractionPattern.memo_pattern e.2) tx = Ok false)
          (InteractionGraph.patterns g)).
Proof.
  split; [intros id; apply find_matching_in_Some|].
  apply find_matching_in_None.
Qed.

Lemma any_matches_spec (l : list MemoPattern.t) (tx : pydict) :
  string_fields tx ->
  exists b,
    InteractionGraph.any_matches l tx = Ok b /\
    (b = true <-> exists p, p ∈ l /\ MemoPattern.matches p tx = Ok true).
Proof.
  intros Hf. induction l as [|p l (b & Hb & IH)]; simpl.
  - exists false. split; [reflexivity|]. split; [discriminate|].
    intros (p & Hp & _). apply elem_of_nil in Hp. contradiction.
  - destruct (matches_returns p tx Hf) as [[|] Hm];
      rewrite Hm; simpl.
    + exists true. split; [reflexivity|]. split; [|reflexivity].
      intros _. exists p. split; [left | assumption].
    + exists b. split; [assumption|]. rewrite IH. split.
      * intros (q & Hq & Hqm). exists q. split; [right|]; assumption.
      * intros (q & Hq & Hqm).
        apply elem_of_cons in Hq as [->|Hq]; [congruence | eauto].
Qed.

(** X12: [is_valid_response] answers [False] for an id that is not
    registered and for one whose role is not [REQUEST]; for a registered
    request and a transaction with string fields it answers whether one
    of the request's valid responses matches the transaction. *)
Theorem is_valid_response_spec (g : InteractionGraph.t) (id : string)
    (tx : pydict) :
  (dict_lookup String.eqb id (InteractionGraph.patterns g) = None ->
   InteractionGraph.is_valid_response g id tx = Ok false) /\
  (forall ip,
     dict_lookup String.eqb id (InteractionGraph.patterns g) = Some ip ->
     InteractionPattern.transaction_type ip <> REQUEST ->
     InteractionGraph.is_valid_response g id tx = Ok false) /\
  (forall ip l,
     dict_lookup String.eqb id (InteractionGraph.patterns g) = Some ip ->
     InteractionPattern.transaction_type ip = REQUEST ->
     InteractionPattern.valid_responses ip = Some l ->
     string_fields tx ->
     exists b,
       InteractionGraph.is_valid_response g id tx = Ok b /\
       (b = true <->
        exists p, p ∈ l /\ MemoPattern.matches p tx = Ok true)).
Proof.
  unfold InteractionGraph.is_valid_response. split; [|split].
  - intros ->. reflexivity.
  - intros ip -> Hty. rewrite bool_decide_eq_false_2 by assumption.
    reflexivity.
  - intros ip l -> Hty -> Hf. rewrite bool_decide_eq_true_2 by assumption.
    simpl. apply any_matches_spec. assumption.
Qed.

Lemma find_matching_pattern_first_witness :
  let a := MemoPattern.mk (Some (Literal "A")) None None in
  let any := MemoPattern.mk None None None in
  let g := InteractionGraph.mk
             [("first", InteractionPattern.mk a STANDALONE None false);
              ("all", InteractionPattern.mk any STANDALONE None false);
              ("again", InteractionPattern.mk a STANDALONE None false)]
             [] in
  InteractionGraph.find_matching_pattern g {[ "memo_type" := PStr "B" ]}
    = Ok (Some "all").
Proof.
  intros a any g.
  apply (proj1 (find_matching_pattern_first g {[ "memo_type" := PStr "B" ]})).
  exists [("first", InteractionPattern.mk a STANDALONE None false)],
    (InteractionPattern.mk any STANDALONE None false),
    [("again", InteractionPattern.mk a STANDALONE None false)].
  split; [reflexivity|]. split; [reflexivity|].
  repeat constructor.
Defined.

Lemma is_valid_response_spec_witness :
  let x := MemoPattern.mk (Some (Literal "X")) None None in
  let ask := MemoPattern.mk (Some (Literal "ask")) None None in
  let g := InteractionGraph.mk
             [("request", InteractionPattern.mk ask REQUEST (Some [x]) false);
              ("reply", InteractionPattern.mk x RESPONSE None false)]
             [(ask, "request"); (x, "reply")] in
  InteractionGraph.is_valid_response g "nobody" {[ "memo_type" := PStr "X" ]}
    = Ok false /\
  InteractionGraph.is_valid_response g "reply" {[ "memo_type" := PStr "X" ]}
    = Ok false /\
  exists b,
    InteractionGraph.is_valid_response g "request"
      {[ "memo_type" := PStr "Y" ]} = Ok b /\
    (b = true <->
     exists p, p ∈ [x] /\
               MemoPattern.matches p {[ "memo_type" := PStr "Y" ]} = Ok true).
Proof.
  intros x ask g. split; [|split].
  - apply (proj1 (is_valid_response_spec g "nobody" _)). reflexivity.
  - apply (proj1 (proj2 (is_valid_response_spec g "reply" _))
             (InteractionPattern.mk x RESPONSE None false));
      [reflexivity | discriminate].
  - apply (proj2 (proj2 (is_valid_response_spec g "request" _))
             (InteractionPattern.mk ask REQUEST (Some [x]) false) [x]);
      [reflexivity | reflexivity | reflexivity |].
    repeat split; first [left; reflexivity | right; eexists; reflexivity].
Defined.

(** ** Registration *)

Section DictSetFacts.
Context {K V : Type} (eqb : K -> K -> bool).
Hypothesis eqb_refl : forall k, eqb k k = true.
Hypothesis eqb_sym : forall k k', eqb k k' = eqb k' k.
Hypothesis eqb_trans :
  forall a b c, eqb a b = true -> eqb b c = true -> eqb a c = true.

Lemma dict_lookup_set_equiv (k k' : K) (v : V) (d : list (K * V)) :
  eqb k k' = true -> dict_lookup eqb k' (dict_set eqb k v d) = Some v.
Proof.
  intros He. induction d as [|[x vx] d IH]; simpl.
  - rewrite He. reflexivity.
  - destruct (eqb x k) eqn:E; simpl.
    + rewrite (eqb_trans _ _ _ E He). reflexivity.
    + destruct (eqb x k') eqn:E'; [|exact IH].
      rewrite eqb_sym in He. rewrite (eqb_trans _ _ _ E' He) in E.
      discriminate.
Qed.

Lemma dict_set_keys (k : K) (v : V) (d : list (K * V)) :
  d.*1 = (dict_set eqb k v d).*1 /\ dict_lookup eqb k d <> None \/
  (dict_set eqb k v d).*1 = d.*1 ++ [k] /\ dict_lookup eqb k d = None.
Proof.
  induction d as [|[x vx] d IH]; simpl.
  - right. split; reflexivity.
  - destruct (eqb x k) eqn:E; simpl.
    + left. split; [reflexivity | discriminate].
    + destruct IH as [[H1 H2] | [H1 H2]]; [left | right];
        (split; [|assumption]).
      * f_equal. exact H1.
      * f_equal. exact H1.
Qed.

Lemma Forall_dict_set (Q : V -> Prop) (k : K) (v : V) (d : list (K * V)) :
  Forall (fun e => Q e.2) d -> Q v ->
  Forall (fun e => Q e.2) (dict_set eqb k v d).
Proof.
  intros Hd Hv. induction Hd as [|[x vx] d Hx Hd IH]; simpl.
  - repeat constructor. assumption.
  - destruct (eqb x k); constructor; auto.
Qed.
End DictSetFacts.

Lemma string_eqb_trans (a b c : string) :
  String.eqb a b = true -> String.eqb b c = true -> String.eqb a c = true.
Proof. rewrite !String.eqb_eq. congruence. Qed.

(** X13: after [add_pattern] has registered an id with a memo pattern,
    the forward map gives the new entry for the id and the reverse lookup
    gives the id for the pattern and for every pattern equal to it; the
    forward entries of the other ids and the reverse entries of the
    patterns that are not equal to it are as before. *)
Theorem add_pattern_lookups (g g' : InteractionGraph.t) (id : string)
    (mp : MemoPattern.t) (ty : InteractionType)
    (vr : option (list MemoPattern.t)) (n : bool) :
  InteractionGraph.add_pattern g id mp ty vr n = Ok g' ->
  dict_lookup String.eqb id (InteractionGraph.patterns g')
    = Some (InteractionPattern.mk mp ty vr n) /\
  (forall mp', MemoPattern.eq mp mp' = true ->
     InteractionGraph.get_pattern_id_by_memo_pattern g' mp' = Some id) /\
  (forall id', id' <> id ->
     dict_lookup String.eqb id' (InteractionGraph.patterns g')
     = dict_lookup String.eqb id' (InteractionGraph.patterns g)) /\
  (forall mp', MemoPattern.eq mp mp' = false ->
     InteractionGraph.get_pattern_id_by_memo_pattern g' mp'
     = InteractionGraph.get_pattern_id_by_memo_pattern g mp').
Proof.
  unfold InteractionGraph.add_pattern,
    InteractionGraph.get_pattern_id_by_memo_pattern.
  destruct (InteractionPattern.new mp ty vr n) as [ip|e] eqn:E; simpl;
    [|discriminate].
  apply new_Ok in E. subst ip. intros [= <-]. simpl.
  split; [|split; [|split]].
  - apply dict_lookup_set_eq, String.eqb_refl.
  - intros mp' He.
    apply dict_lookup_set_equiv;
      first [apply MemoPattern_eq_sym | apply MemoPattern_eq_trans
            | assumption].
  - intros id' Hne.
    apply dict_lookup_set_ne;
      first [apply String.eqb_sym | apply string_eqb_trans
            | apply String.eqb_neq; congruence].
  - intros mp' He.
    apply dict_lookup_set_ne;
      first [apply MemoPattern_eq_sym | apply MemoPattern_eq_trans
            | assumption].
Qed.

Lemma add_pattern_lookups_witness :
  let w := MemoPattern.mk (Some (Compiled (mkPattern "^abc" (Lit "abc"))))
                          None None in
  let w' := MemoPattern.mk
              (Some (Compiled (mkPattern "^abc" (Cat (Lit "ab") (Chr "c")))))
              None None in
  let g' := InteractionGraph.mk
              [("P", InteractionPattern.mk w STANDALONE None true)]
              [(w, "P")] in
  InteractionGraph.get_pattern_id_by_memo_pattern g' w' = Some "P".
Proof.
  intros w w' g'.
  apply (proj1 (proj2 (add_pattern_lookups InteractionGraph.init g' "P" w
                         STANDALONE None true eq_refl))).
  reflexivity.
Defined.

(** X14: [add_pattern] keeps the graph consistent with the roles: when
    every registered request has a set of valid responses that is not
    empty and every registered response has none, the same holds after a
    registration that succeeds; the empty graph is consistent. *)
Theorem add_pattern_keeps_roles (g g' : InteractionGraph.t) (id : string)
    (mp : MemoPattern.t) (ty : InteractionType)
    (vr : option (list MemoPattern.t)) (n : bool) :
  Forall (fun e => role_consistent e.2) (InteractionGraph.patterns g) ->
  InteractionGraph.add_pattern g id mp ty vr n = Ok g' ->
  Forall (fun e => role_consistent e.2) (InteractionGraph.patterns g').
Proof.
  unfold InteractionGraph.add_pattern. intros Hall.
  destruct (InteractionPattern.new mp ty vr n) as [ip|e] eqn:E; simpl;
    [|discriminate].
  intros [= <-]. simpl. apply Forall_dict_set; [assumption|].
  pose proof (new_Ok _ _ _ _ _ E) as ->.
  unfold InteractionPattern.new, InteractionPattern.post_init in E.
  simpl in E. unfold role_consistent. simpl.
  destruct ty, vr as [[|x l]|]; simpl in E; try discriminate;
    split; intros; try discriminate; eauto.
Qed.

Lemma add_pattern_keeps_roles_witness :
  let x := MemoPattern.mk (Some (Literal "X")) None None in
  let ask := MemoPattern.mk (Some (Literal "ask")) None None in
  Forall (fun e => role_consistent e.2)
         [("request", InteractionPattern.mk ask REQUEST (Some [x]) false)].
Proof.
  intros x ask.
  apply (add_pattern_keeps_roles InteractionGraph.init
           (InteractionGraph.mk
              [("request", InteractionPattern.mk ask REQUEST (Some [x]) false)]
              [(ask, "request")])
           "request" ask REQUEST (Some [x]) false).
  - constructor.
  - reflexivity.
Defined.

(** X15: registration order is kept: a new id goes after all the
    registered ones, and registering an id again leaves it where it was,
    so the order in which [find_matching_pattern] tries the patterns
    does not change. *)
Theorem add_pattern_order (g g' : InteractionGraph.t) (id : string)
    (mp : MemoPattern.t) (ty : InteractionType)
    (vr : option (list MemoPattern.t)) (n : bool) :
  InteractionGraph.add_pattern g id mp ty vr n = Ok g' ->
  (dict_lookup String.eqb id (InteractionGraph.patterns g) = None ->
   (InteractionGraph.patterns g').*1
   = (InteractionGraph.patterns g).*1 ++ [id]) /\
  (dict_lookup String.eqb id (InteractionGraph.patterns g) <> None ->
   (InteractionGraph.patterns g').*1 = (InteractionGraph.patterns g).*1).
Proof.
  unfold InteractionGraph.add_pattern.
  destruct (InteractionPattern.new mp ty vr n) as [ip|e]; simpl;
    [|discriminate].
  intros [= <-]. simpl.
  destruct (dict_set_keys String.eqb id ip (InteractionGraph.patterns g))
    as [[H1 H2] | [H1 H2]]; split; intros H; congruence.
Qed.

Lemma add_pattern_order_witness :
  let a := MemoPattern.mk (Some (Literal "A")) None None in
  let b := MemoPattern.mk (Some (Literal "B")) None None in
  let g := InteractionGraph.mk
             [("one", InteractionPattern.mk a STANDALONE None false);
              ("two", InteractionPattern.mk b STANDALONE None false)]
             [(a, "one"); (b, "two")] in
  let g' := InteractionGraph.mk
              [("one", InteractionPattern.mk b STANDALONE None false);
               ("two", InteractionPattern.mk b STANDALONE None false)]
              [(a, "one"); (b, "one")] in
  (InteractionGraph.patterns g').*1 = (InteractionGraph.patterns g).*1.
Proof.
  intros a b g g'.
  apply (proj2 (add_pattern_order g g' "one" b STANDALONE None false
                  eq_refl)).
  discriminate.
Defined.

Lemma find_matching_in_total (items : list (string * InteractionPattern.t))
    (tx : pydict) :
  string_fields tx ->
  exists r, InteractionGraph.find_matching_in items tx = Ok r.
Proof.
  intros Hf. induction items as [|[k ip] items [r IH]]; simpl; [eauto|].
  destruct (matches_returns
              (InteractionPattern.memo_pattern ip) tx Hf) as [[|] ->];
    simpl; eauto.
Qed.

(** X16: on a graph that is consistent with the roles, the two queries
    raise nothing for a transaction whose memo fields are strings, null or
    missing: [find_matching_pattern] returns an id or [None], and
    [is_valid_response] returns a Boolean for every id. *)
Theorem graph_queries_total (g : InteractionGraph.t) (id : string)
    (tx : pydict) :
  Forall (fun e => role_consistent e.2) (InteractionGraph.patterns g) ->
  string_fields tx ->
  (exists r, InteractionGraph.find_matching_pattern g tx = Ok r) /\
  (exists b, InteractionGraph.is_valid_response g id tx = Ok b).
Proof.
  intros Hall Hf. split; [apply find_matching_in_total; assumption|].
  unfold InteractionGraph.is_valid_response.
  destruct (dict_lookup String.eqb id (InteractionGraph.patterns g))
    as [ip|] eqn:L; [|eauto].
  assert (role_consistent ip) as [Hreq _].
  { clear Hf. induction Hall as [|[k v] d Hv Hd IH]; simpl in L;
      [discriminate|].
    destruct (String.eqb k id); [injection L as <-; exact Hv | auto]. }
  case_bool_decide as Hty; simpl; [|eauto].
  destruct (Hreq Hty) as (x & l & ->).
  destruct (any_matches_spec (x :: l) tx Hf) as (b & Hb & _). eauto.
Qed.

Lemma graph_queries_total_witness :
  let x := MemoPattern.mk (Some (Compiled (mkPattern "^X" (Lit "X"))))
                          None None in
  let ask := MemoPattern.mk (Some (Literal "ask")) None None in
  let g := InteractionGraph.mk
             [("request", InteractionPattern.mk ask REQUEST (Some [x]) false)]
             [(ask, "request")] in
  (exists r, InteractionGraph.find_matching_pattern g
               {[ "memo_type" := PStr "Xyz" ]} = Ok r) /\
  (exists b, InteractionGraph.is_valid_response g "request"
               {[ "memo_type" := PStr "Xyz" ]} = Ok b).
Proof.
  intros x ask g. apply graph_queries_total.
  - repeat constructor; [intros _; eauto | discriminate].
  - repeat split; first [left; reflexivity | right; eexists; reflexivity].
Defined.








